(** * File Handler Program: a shallow embedding of [File_Program.py]

    The program reads a text file, applies one whole-content transformation
    and writes the result to another file, asking before it overwrites.

    Python strings are sequences of Unicode code points, so a [text] is a
    list of code points ([N]).  The methods of [str] the program calls
    ([upper], [lower], [title], [split], [join], [strip], slicing) are
    embedded after their CPython implementation ([Objects/unicodeobject.c],
    [Objects/stringlib/split.h]); the tables of the Unicode Character
    Database those methods consult are a parameter ([unicode_db]).

    The file system and the console are an explicit [world] threaded through
    a small state-and-exception monad. *)

From Stdlib Require Import NArith List String Ascii Bool Lia DecimalString.
From stdpp Require Import gmap list.

Open Scope N_scope.

(** ** Text *)

Abbreviation text := (list N).
Abbreviation path := (list N).

(** A literal of the source: all literals of the program that are modelled
    through [str] are ASCII, the other ones are written as code points. *)
Definition str (s : string) : text :=
  map N_of_ascii (list_ascii_of_string s).

Definition in_range (lo hi c : N) : bool := (lo <=? c) && (c <=? hi).

(** [Py_UNICODE_ISSPACE]: the code points for which [str.isspace] holds, the
    separators of [str.split()] and the characters [str.strip()] removes. *)
Definition is_whitespace (c : N) : bool :=
  in_range 0x09 0x0D c || in_range 0x1C 0x20 c
  || (c =? 0x85) || (c =? 0xA0) || (c =? 0x1680)
  || in_range 0x2000 0x200A c
  || (c =? 0x2028) || (c =? 0x2029) || (c =? 0x202F)
  || (c =? 0x205F) || (c =? 0x3000).

(** ** The Unicode tables behind [str.upper], [str.lower] and [str.title] *)

Record unicode_db : Type := {
  to_upper_full : N -> text;      (* _PyUnicode_ToUpperFull *)
  to_lower_full : N -> text;      (* _PyUnicode_ToLowerFull *)
  to_title_full : N -> text;      (* _PyUnicode_ToTitleFull *)
  is_cased : N -> bool;           (* _PyUnicode_IsCased *)
  is_case_ignorable : N -> bool;  (* _PyUnicode_IsCaseIgnorable *)
  is_lowercase : N -> bool;       (* _PyUnicode_IsLowercase, str.islower *)
  is_uppercase : N -> bool        (* _PyUnicode_IsUppercase, str.isupper *)
}.

Section StrMethods.

Variable U : unicode_db.

(** [do_upper]: every character is replaced by its full uppercase mapping. *)
Definition str_upper (s : text) : text :=
  flat_map (to_upper_full U) s.

(** The first character that is not case-ignorable, scanning from the head. *)
Fixpoint skip_case_ignorable (s : text) : option N :=
  match s with
  | [] => None
  | c :: s' => if is_case_ignorable U c then skip_case_ignorable s' else Some c
  end.

(** [handle_capital_sigma]: U+03A3 is in Final_Sigma context when a cased
    character precedes it (over case-ignorable ones) and no cased character
    follows it (over case-ignorable ones).  [before] is the text before the
    sigma in reverse order, [after] the text behind it. *)
Definition handle_capital_sigma (before after : text) : N :=
  let final_sigma :=
    match skip_case_ignorable before with
    | Some c => is_cased U c
    | None => false
    end in
  let final_sigma :=
    if final_sigma then
      match skip_case_ignorable after with
      | Some c => negb (is_cased U c)
      | None => true
      end
    else false in
  if final_sigma then 0x3C2 else 0x3C3.

(** [lower_ucs4] *)
Definition lower_ucs4 (before : text) (c : N) (after : text) : text :=
  if c =? 0x3A3 then [handle_capital_sigma before after]
  else to_lower_full U c.

(** [do_lower], the loop index as the pair of the reversed prefix and the
    rest of the text. *)
Fixpoint do_lower (before s : text) : text :=
  match s with
  | [] => []
  | c :: after => lower_ucs4 before c after ++ do_lower (c :: before) after
  end.

Definition str_lower (s : text) : text := do_lower [] s.

(** [do_title]: a character after a cased character is lowercased, every
    other character is titlecased. *)
Fixpoint do_title (previous_is_cased : bool) (before s : text) : text :=
  match s with
  | [] => []
  | c :: after =>
      (if previous_is_cased then lower_ucs4 before c after
       else to_title_full U c)
      ++ do_title (is_cased U c) (c :: before) after
  end.

Definition str_title (s : text) : text := do_title false [] s.

End StrMethods.

(** [content[::-1]] *)
Definition str_reverse (s : text) : text := rev s.

(** [content * n] *)
Fixpoint str_repeat (s : text) (n : nat) : text :=
  match n with
  | O => []
  | S n' => s ++ str_repeat s n'
  end.

(** [str.split()] without arguments ([split_whitespace] of stringlib): skip
    whitespace, collect the maximal run of other characters, repeat.  [word]
    is the run collected so far. *)
Fixpoint split_from (word s : text) : list text :=
  match s with
  | [] => match word with [] => [] | _ => [word] end
  | c :: s' =>
      if is_whitespace c then
        match word with
        | [] => split_from [] s'
        | _ => word :: split_from [] s'
        end
      else split_from (word ++ [c]) s'
  end.

Definition str_split (s : text) : list text := split_from [] s.

(** [sep.join(pieces)] *)
Fixpoint str_join (sep : text) (pieces : list text) : text :=
  match pieces with
  | [] => []
  | [p] => p
  | p :: rest => p ++ sep ++ str_join sep rest
  end.

(** [str.strip()] *)
Fixpoint lstrip (s : text) : text :=
  match s with
  | [] => []
  | c :: s' => if is_whitespace c then lstrip s' else s
  end.

Definition rstrip (s : text) : text := rev (lstrip (rev s)).

Definition str_strip (s : text) : text := rstrip (lstrip s).

(** ** The transformer *)

Section Transformer.

Variable U : unicode_db.

(** The dictionary [modify_content] builds: every value is computed before
    the lookup, as in the source. *)
Definition modification_types (content : text) : gmap text text :=
  <[str "upper" := str_upper U content]>
  (<[str "lower" := str_lower U content]>
  (<[str "title" := str_title U content]>
  (<[str "reverse" := str_reverse content]>
  (<[str "double" := str_repeat content 2]>
  (<[str "remove_spaces" := str_join (str " ") (str_split content)]>
  (<[str "default" := content]> ∅)))))).

Definition modify_content (content : text) (modification_type : text) : text :=
  match content with
  | [] => content
  | _ => default content (modification_types content !! modification_type)
  end.

End Transformer.

(** ** A Unicode table for the Latin blocks

    [latin_db] gives the entries of the Unicode Character Database for the
    code points of [in_latin_fragment]: the blocks Basic Latin, Latin-1
    Supplement and Latin Extended-A (U+0000 to U+017F) and U+03D2 (GREEK
    UPSILON WITH HOOK SYMBOL, an uppercase letter without a lowercase form).
    Other code points get the entry of a caseless character, which is not
    what the database says of every one of them: the instance is meant for
    texts over the fragment. *)

Definition in_latin_fragment (c : N) : bool := (c <=? 0x17F) || (c =? 0x3D2).

Definition latin_is_uppercase (c : N) : bool :=
  in_range 0x41 0x5A c
  || (in_range 0xC0 0xDE c && negb (c =? 0xD7))
  || (in_range 0x100 0x137 c && N.even c)
  || (in_range 0x139 0x148 c && N.odd c)
  || (in_range 0x14A 0x177 c && N.even c)
  || (c =? 0x178)
  || (in_range 0x179 0x17E c && N.odd c)
  || (c =? 0x3D2).

Definition latin_is_lowercase (c : N) : bool :=
  in_range 0x61 0x7A c
  || (c =? 0xAA) || (c =? 0xB5) || (c =? 0xBA)
  || (in_range 0xDF 0xFF c && negb (c =? 0xF7))
  || (in_range 0x100 0x137 c && N.odd c)
  || (c =? 0x138)
  || (in_range 0x139 0x148 c && N.even c)
  || (c =? 0x149)
  || (in_range 0x14A 0x177 c && N.odd c)
  || (in_range 0x179 0x17E c && N.even c)
  || (c =? 0x17F).

Definition latin_to_lower (c : N) : text :=
  if in_range 0x41 0x5A c then [c + 32]
  else if in_range 0xC0 0xDE c && negb (c =? 0xD7) then [c + 32]
  else if c =? 0x130 then [0x69; 0x307]
  else if c =? 0x178 then [0xFF]
  else if c =? 0x3D2 then [c]
  else if latin_is_uppercase c then [c + 1]
  else [c].

Definition latin_to_upper (c : N) : text :=
  if in_range 0x61 0x7A c then [c - 32]
  else if (c =? 0xAA) || (c =? 0xBA) || (c =? 0x138) then [c]
  else if c =? 0xB5 then [0x39C]
  else if c =? 0xDF then [0x53; 0x53]
  else if c =? 0xFF then [0x178]
  else if in_range 0xE0 0xFE c && negb (c =? 0xF7) then [c - 32]
  else if c =? 0x131 then [0x49]
  else if c =? 0x149 then [0x2BC; 0x4E]
  else if c =? 0x17F then [0x53]
  else if latin_is_lowercase c then [c - 1]
  else [c].

Definition latin_to_title (c : N) : text :=
  if c =? 0xDF then [0x53; 0x73] else latin_to_upper c.

Definition latin_is_case_ignorable (c : N) : bool :=
  (c =? 0x27) || (c =? 0x2E) || (c =? 0x3A) || (c =? 0x5E) || (c =? 0x60)
  || (c =? 0xA8) || (c =? 0xAD) || (c =? 0xAF) || (c =? 0xB4)
  || (c =? 0xB7) || (c =? 0xB8).

Definition latin_db : unicode_db := {|
  to_upper_full := latin_to_upper;
  to_lower_full := latin_to_lower;
  to_title_full := latin_to_title;
  is_cased := fun c => latin_is_uppercase c || latin_is_lowercase c;
  is_case_ignorable := latin_is_case_ignorable;
  is_lowercase := latin_is_lowercase;
  is_uppercase := latin_is_uppercase
|}.

(** ** The world: file system and console *)

(** What a path denotes.  [TextFile content] is a regular file whose bytes
    are the UTF-8 encoding of [content]; [BinaryFile] is a regular file whose
    bytes are not valid UTF-8; [Directory msg] is anything that exists and
    cannot be opened as a file, [msg] being the text of the [OSError] the
    platform raises for it. *)
Inductive node : Type :=
| TextFile (content : text)
| BinaryFile
| Directory (msg : text).

(** The subclasses of [OSError] the program tells apart: [ENOENT] is
    [FileNotFoundError], [EACCES] is [PermissionError], [EOTHER] stands for
    the other ones ([IsADirectoryError], a full disk, ...). *)
Inductive os_kind : Type := ENOENT | EACCES | EOTHER.

(** What the operating system answers when it refuses to open a path: the
    class of the error and its text, [str(e)]. *)
Inductive fault : Type :=
| Fault (kind : os_kind) (msg : text).

(** One answer of the user at a prompt. *)
Inductive event : Type :=
| Line (s : text)
| Interrupt.             (* Ctrl-C while [input] waits *)

Inductive output : Type :=
| Printed (s : text)     (* print(s) *)
| Prompted (s : text).   (* the prompt of input(s) *)

Record world : Type := {
  nodes : gmap path node;
  read_faults : gmap path fault;
  write_faults : gmap path fault;
  stdin : list event;
  stdout : list output
}.

Definition set_nodes (f : gmap path node -> gmap path node) (w : world) : world :=
  {| nodes := f (nodes w); read_faults := read_faults w;
     write_faults := write_faults w; stdin := stdin w; stdout := stdout w |}.

Definition set_stdin (i : list event) (w : world) : world :=
  {| nodes := nodes w; read_faults := read_faults w;
     write_faults := write_faults w; stdin := i; stdout := stdout w |}.

Definition emit (o : output) (w : world) : world :=
  {| nodes := nodes w; read_faults := read_faults w;
     write_faults := write_faults w; stdin := stdin w;
     stdout := stdout w ++ [o] |}.

(** The exceptions the program meets. *)
Inductive exn : Type :=
| OSError (kind : os_kind) (msg : text)
| UnicodeDecodeError
| UnicodeEncodeError
| EOFError
| KeyError (key : text)
| KeyboardInterrupt
| SystemExit (status : N).

(** A computation returns, raises, or exhausts the fuel of a loop. *)
Inductive outcome (A : Type) : Type :=
| Return (a : A)
| Raise (e : exn)
| OutOfFuel.

Arguments Return {A} a.
Arguments Raise {A} e.
Arguments OutOfFuel {A}.

Definition M (A : Type) : Type := world -> outcome A * world.

Definition ret {A : Type} (a : A) : M A := fun w => (Return a, w).

Definition raise {A : Type} (e : exn) : M A := fun w => (Raise e, w).

Definition bind {A B : Type} (c : M A) (k : A -> M B) : M B :=
  fun w =>
    match c w with
    | (Return a, w') => k a w'
    | (Raise e, w') => (Raise e, w')
    | (OutOfFuel, w') => (OutOfFuel, w')
    end.

Notation "x <- c ;; k" := (bind c (fun x => k))
  (at level 100, c at next level, right associativity).
Notation "c ;; k" := (bind c (fun _ => k))
  (at level 100, right associativity).

(** [try: body except ...: handler]: the handler chosen by [handlers] runs in
    the world the body left; an exception without handler goes on. *)
Definition try_except {A : Type} (body : M A) (handlers : exn -> option (M A)) : M A :=
  fun w =>
    match body w with
    | (Raise e, w') =>
        match handlers e with
        | Some h => h w'
        | None => (Raise e, w')
        end
    | r => r
    end.

(** A [while True:] loop.  The body answers [Some a] when it leaves the loop
    and [None] when it goes round again. *)
Fixpoint loop {A : Type} (body : M (option A)) (fuel : nat) : M A :=
  match fuel with
  | O => fun w => (OutOfFuel, w)
  | S fuel' =>
      r <- body ;;
      match r with
      | Some a => ret a
      | None => loop body fuel'
      end
  end.

(** Every round of the loops of the program reads the console at least
    once, so one more round than there are answers left is all a loop can
    make ([main_terminates]). *)
Definition while_true {A : Type} (body : M (option A)) : M A :=
  fun w => loop body (S (length (stdin w))) w.

(** *** Console *)

Definition print (s : text) : M unit :=
  fun w => (Return tt, emit (Printed s) w).

(** [input(prompt)]: at the end of the input [EOFError] is raised. *)
Definition input (prompt : text) : M text :=
  fun w =>
    let w := emit (Prompted prompt) w in
    match stdin w with
    | [] => (Raise EOFError, w)
    | Line s :: rest => (Return s, set_stdin rest w)
    | Interrupt :: rest => (Raise KeyboardInterrupt, set_stdin rest w)
    end.

(** *** File system *)

Definition os_path_exists (p : path) : M bool :=
  fun w => (Return (bool_decide (is_Some (nodes w !! p))), w).

(** The text of the error for a path that does not exist (the program never
    prints it). *)
Definition no_such_file (p : path) : text :=
  str "[Errno 2] No such file or directory: '" ++ p ++ str "'".

(** [open(p, 'r', encoding='utf-8')] followed by [read()]. *)
Definition open_read (p : path) : M text :=
  fun w =>
    match read_faults w !! p with
    | Some (Fault kind msg) => (Raise (OSError kind msg), w)
    | None =>
        match nodes w !! p with
        | None => (Raise (OSError ENOENT (no_such_file p)), w)
        | Some (Directory msg) => (Raise (OSError EOTHER msg), w)
        | Some BinaryFile => (Raise UnicodeDecodeError, w)
        | Some (TextFile content) => (Return content, w)
        end
    end.

(** [open(p, 'w', encoding='utf-8')]: the file is created or truncated. *)
Definition open_write (p : path) : M unit :=
  fun w =>
    match write_faults w !! p with
    | Some (Fault kind msg) => (Raise (OSError kind msg), w)
    | None =>
        match nodes w !! p with
        | Some (Directory msg) => (Raise (OSError EOTHER msg), w)
        | _ => (Return tt, set_nodes (insert p (TextFile [])) w)
        end
    end.

(** UTF-8 encodes every code point but the surrogates. *)
Definition encodable (s : text) : bool :=
  forallb (fun c => negb (in_range 0xD800 0xDFFF c)) s.

(** [file.write(content)] on the file opened at [p], then its closing. *)
Definition file_write (p : path) (content : text) : M unit :=
  fun w =>
    if encodable content
    then (Return tt, set_nodes (insert p (TextFile content)) w)
    else (Raise UnicodeEncodeError, w).

(** ** The program *)

Definition nl : text := [0x0A].

(** [str(n)] for a length. *)
Definition decimal (n : nat) : text :=
  str (NilEmpty.string_of_uint (Nat.to_uint n)).

(** The preview [main] prints:
    [modified_content[:200] + ("..." if len(modified_content) > 200 else "")]. *)
Definition preview (modified_content : text) : text :=
  take 200 modified_content
  ++ (if (200 <? length modified_content)%nat then str "..." else str "").

Section Program.

Variable U : unicode_db.

Definition read_file (filename : path) : M (option text) :=
  try_except
    (content <- open_read filename ;;
     print ([0x2713] ++ str " Successfully read " ++ filename) ;;
     ret (Some content))
    (fun e =>
       match e with
       | OSError ENOENT _ => Some (
           print ([0x274C] ++ str " Error: The file '" ++ filename
                  ++ str "' was not found.") ;;
           ret None)
       | OSError EACCES _ => Some (
           print ([0x274C] ++ str " Error: Permission denied to read '"
                  ++ filename ++ str "'.") ;;
           ret None)
       | UnicodeDecodeError => Some (
           print ([0x274C] ++ str " Error: Cannot decode the file '" ++ filename
                  ++ str "'. It might be a binary file.") ;;
           ret None)
       | OSError EOTHER e => Some (
           print ([0x274C] ++ str " Error: Unable to read file '" ++ filename
                  ++ str "': " ++ e) ;;
           ret None)
       | _ => None
       end).

(** Lines 84 to 87 of the source, reached when the path is free or the
    overwrite is confirmed. *)
Definition write_and_report (filename : path) (content : text) : M bool :=
  open_write filename ;;
  file_write filename content ;;
  print ([0x2713] ++ str " Successfully wrote to " ++ filename) ;;
  ret true.

Definition overwrite_prompt (filename : path) : text :=
  [0x26A0; 0xFE0F] ++ str "  File '" ++ filename
  ++ str "' already exists. Overwrite? (y/n): ".

(** The two [except] clauses of [write_file]: [PermissionError] first, then
    [IOError], which is [OSError] and so takes every other subclass. *)
Definition write_handlers (filename : path) (e : exn) : option (M bool) :=
  match e with
  | OSError EACCES _ => Some (
      print ([0x274C] ++ str " Error: Permission denied to write to '"
             ++ filename ++ str "'.") ;;
      ret false)
  | OSError _ e => Some (
      print ([0x274C] ++ str " Error: Unable to write to file '" ++ filename
             ++ str "': " ++ e) ;;
      ret false)
  | _ => None
  end.

Definition write_file (filename : path) (content : text) : M bool :=
  try_except
    (file_exists <- os_path_exists filename ;;
     if file_exists then
       answer <- input (overwrite_prompt filename) ;;
       let overwrite := str_lower U answer in
       if bool_decide (overwrite ≠ str "y") then
         print (str "Operation cancelled.") ;;
         ret false
       else write_and_report filename content
     else write_and_report filename content)
    (write_handlers filename).

(** [sys.exit(status)] *)
Definition sys_exit {A : Type} (status : N) : M A := raise (SystemExit status).

Definition modification_map : gmap text text :=
  <[str "1" := str "upper"]>
  (<[str "2" := str "lower"]>
  (<[str "3" := str "title"]>
  (<[str "4" := str "reverse"]>
  (<[str "5" := str "double"]>
  (<[str "6" := str "remove_spaces"]>
  (<[str "7" := str "default"]> ∅)))))).

Definition get_modification_choice : M text :=
  print (nl ++ str "Choose modification type:") ;;
  print (str "1. Convert to UPPERCASE") ;;
  print (str "2. Convert to lowercase") ;;
  print (str "3. Convert to Title Case") ;;
  print (str "4. Reverse content") ;;
  print (str "5. Double content") ;;
  print (str "6. Remove extra spaces") ;;
  print (str "7. No modification") ;;
  while_true
    (try_except
       (answer <- input (str "Enter your choice (1-7): ") ;;
        let choice := str_strip answer in
        if bool_decide (choice ∈ [str "1"; str "2"; str "3"; str "4";
                                  str "5"; str "6"; str "7"]) then
          match modification_map !! choice with
          | Some kind => ret (Some kind)
          | None => raise (KeyError choice)
          end
        else
          print (str "Please enter a number between 1 and 7.") ;;
          ret None)
       (fun e =>
          match e with
          | KeyboardInterrupt => Some (
              print (nl ++ str "Operation cancelled.") ;;
              sys_exit 0)
          | _ => None
          end)).

(** The first loop of [main] leaves with the content read, or returns from
    [main] ([None]). *)
Definition input_round : M (option (option text)) :=
  answer <- input (nl ++ str "Enter the filename to read: ") ;;
  let input_filename := str_strip answer in
  match input_filename with
  | [] => print (str "Please enter a valid filename.") ;; ret None
  | _ =>
      content <- read_file input_filename ;;
      match content with
      | Some content => ret (Some (Some content))
      | None =>
          answer <- input (str "Would you like to try another file? (y/n): ") ;;
          let retry := str_lower U answer in
          if bool_decide (retry ≠ str "y") then
            print (str "Goodbye!") ;; ret (Some None)
          else ret None
      end
  end.

(** The second loop of [main] leaves with the name of the file written, or
    returns from [main] ([None]). *)
Definition output_round (modified_content : text) : M (option (option path)) :=
  answer <- input (nl ++ str "Enter output filename: ") ;;
  let output_filename := str_strip answer in
  match output_filename with
  | [] => print (str "Please enter a valid filename.") ;; ret None
  | _ =>
      written <- write_file output_filename modified_content ;;
      if written then ret (Some (Some output_filename))
      else
        answer <- input (str "Would you like to try another filename? (y/n): ") ;;
        let retry := str_lower U answer in
        if bool_decide (retry ≠ str "y") then
          print (str "Operation cancelled.") ;; ret (Some None)
        else ret None
  end.

Definition show_preview (content modified_content : text) (output_filename : path)
  : M unit :=
  print (nl ++ str_repeat (str "=") 50) ;;
  print ([0x1F4CA] ++ str " PREVIEW") ;;
  print (str_repeat (str "=") 50) ;;
  print (str "Original length: " ++ decimal (length content) ++ str " characters") ;;
  print (str "Modified length: " ++ decimal (length modified_content)
         ++ str " characters") ;;
  print (nl ++ str "Preview:" ++ nl ++ preview modified_content) ;;
  print (nl ++ [0x2705] ++ str " Operation completed successfully!") ;;
  print ([0x1F4C1] ++ str " Output saved to: " ++ output_filename).

Definition main : M unit :=
  print (str_repeat (str "=") 50) ;;
  print ([0x1F4C1] ++ str " FILE HANDLER PROGRAM") ;;
  print (str_repeat (str "=") 50) ;;
  read <- while_true input_round ;;
  match read with
  | None => ret tt
  | Some content =>
      modification_type <- get_modification_choice ;;
      let modified_content := modify_content U content modification_type in
      written <- while_true (output_round modified_content) ;;
      match written with
      | None => ret tt
      | Some output_filename =>
          show_preview content modified_content output_filename
      end
  end.

End Program.

(** * What the specification speaks of *)

(** The seven names [modify_content] knows. *)
Definition known_kinds : list text :=
  [str "upper"; str "lower"; str "title"; str "reverse"; str "double";
   str "remove_spaces"; str "default"].

(** ** Splitting on runs of whitespace, as the specification words it *)

Definition blank (s : text) : Prop := Forall (fun c => is_whitespace c = true) s.

Definition solid (s : text) : Prop := Forall (fun c => is_whitespace c = false) s.

(** A text that does not go on with a character of a word. *)
Definition starts_blank (s : text) : Prop :=
  match s with
  | [] => True
  | c :: _ => is_whitespace c = true
  end.

(** [pieces_of content pieces]: [content] is a run of whitespace, then the
    first piece, a maximal non-empty run without whitespace, and so on; the
    runs of whitespace before, between and after the pieces are dropped. *)
Inductive pieces_of : text -> list text -> Prop :=
| pieces_none (gap : text) :
    blank gap -> pieces_of gap []
| pieces_more (gap piece rest : text) (pieces : list text) :
    blank gap -> piece <> [] -> solid piece -> starts_blank rest ->
    pieces_of rest pieces ->
    pieces_of (gap ++ piece ++ rest) (piece :: pieces).

(** ** Title case, in two wordings *)

Section TitleWordings.

Variable U : unicode_db.

(** Title case over words delimited by whitespace: the first character of a
    word is uppercased and the other ones are lowercased, a word being a
    maximal run without whitespace. *)
Fixpoint whitespace_title_from (at_word_start : bool) (s : text) : text :=
  match s with
  | [] => []
  | c :: s' =>
      (if is_whitespace c then [c]
       else if at_word_start then to_upper_full U c
       else to_lower_full U c)
      ++ whitespace_title_from (is_whitespace c) s'
  end.

Definition whitespace_title (s : text) : text := whitespace_title_from true s.

(** Title case by position: the character at index [i] is lowercased when
    the character before it is cased, and titlecased otherwise (at the start
    of the text and after every caseless character, whitespace or not). *)
Definition title_char (s : text) (i : nat) (c : N) : text :=
  match i with
  | O => to_title_full U c
  | S j =>
      match s !! j with
      | Some p =>
          if is_cased U p
          then lower_ucs4 U (rev (take i s)) c (drop (S i) s)
          else to_title_full U c
      | None => to_title_full U c
      end
  end.

Definition title_by_case (s : text) : text := concat (imap (title_char s) s).

(** Whether the loop of [do_title] has left a cased character behind. *)
Definition cased_before (before : text) : bool :=
  match last before with
  | Some p => is_cased U p
  | None => false
  end.

End TitleWordings.

(** ** Tables in which a case mapping, done once, is done

    Every character of an uppercase mapping is its own uppercase mapping, and
    the same for lowercase, the two small sigmas included.  The Unicode
    Character Database has this property. *)
Definition case_stable (U : unicode_db) : Prop :=
  (forall c d, d ∈ to_upper_full U c -> to_upper_full U d = [d])
  /\ (forall c d, d ∈ to_lower_full U c -> to_lower_full U d = [d])
  /\ to_lower_full U 0x3C2 = [0x3C2]
  /\ to_lower_full U 0x3C3 = [0x3C3].

(** The characters of [f c] are left as they are by [f]. *)
Definition fixed_by (f : N -> text) (c : N) : bool :=
  forallb (fun d => bool_decide (f d = [d])) (f c).

(** ** The writer seen from outside *)

(** The three outcomes the specification names for the writer. *)
Inductive write_outcome : Type := Success | Declined | Failure.

(** The operating system refuses to open [p] for writing, with an error of
    class [kind] and text [msg]. *)
Definition open_write_fails (w : world) (p : path) (kind : os_kind) (msg : text)
  : Prop :=
  write_faults w !! p = Some (Fault kind msg)
  \/ (write_faults w !! p = None /\ nodes w !! p = Some (Directory msg)
      /\ kind = EOTHER).

(** The message [write_file] prints for such an error. *)
Definition write_error_message (filename : path) (kind : os_kind) (msg : text)
  : text :=
  match kind with
  | EACCES => [0x274C] ++ str " Error: Permission denied to write to '"
              ++ filename ++ str "'."
  | _ => [0x274C] ++ str " Error: Unable to write to file '" ++ filename
         ++ str "': " ++ msg
  end.

(** The writing itself under the handlers of [write_file]: what [write_file]
    does once nothing stands in the way. *)
Definition write_attempt (filename : path) (content : text) : M bool :=
  try_except (write_and_report filename content) (write_handlers filename).

(** The world after the user has answered the question of [write_file]. *)
Definition asked (filename : path) (rest : list event) (w : world) : world :=
  set_stdin rest (emit (Prompted (overwrite_prompt filename)) w).

(** Two worlds with the file [out.txt]: in the first the user answers [n],
    in the second the user answers [y] and the file is write-protected. *)
Definition world_declining : world := {|
  nodes := {[ str "out.txt" := TextFile (str "old") ]};
  read_faults := ∅;
  write_faults := ∅;
  stdin := [Line (str "n")];
  stdout := []
|}.

Definition world_denying : world := {|
  nodes := {[ str "out.txt" := TextFile (str "old") ]};
  read_faults := ∅;
  write_faults := {[ str "out.txt" :=
                      Fault EACCES (str "[Errno 13] Permission denied: 'out.txt'") ]};
  stdin := [Line (str "y")];
  stdout := []
|}.

(** A third world with the file [out.txt]: the user answers [Y] and nothing
    hinders the writing. *)
Definition world_confirming : world := {|
  nodes := {[ str "out.txt" := TextFile (str "old") ]};
  read_faults := ∅;
  write_faults := ∅;
  stdin := [Line (str "Y")];
  stdout := []
|}.

(** A run of [main] on a file [in.txt] that holds [hello]: the user asks for
    upper case and for the output file [out.txt], which does not exist. *)
Definition world_hello : world := {|
  nodes := {[ str "in.txt" := TextFile (str "hello") ]};
  read_faults := ∅;
  write_faults := ∅;
  stdin := [Line (str "in.txt"); Line (str "1"); Line (str "out.txt")];
  stdout := []
|}.

(** ** Termination of the loops *)

(** A computation that does not run out of fuel and leaves no more answers
    on the console than it found. *)
Definition tame {A : Type} (c : M A) : Prop :=
  forall w,
    fst (c w) <> OutOfFuel
    /\ (length (stdin (snd (c w))) <= length (stdin w))%nat.

(** A loop body that is tame and has read an answer whenever it asks for
    another round. *)
Definition eager {A : Type} (body : M (option A)) : Prop :=
  forall w,
    fst (body w) <> OutOfFuel
    /\ (length (stdin (snd (body w))) <= length (stdin w))%nat
    /\ (fst (body w) = Return None ->
        (length (stdin (snd (body w))) < length (stdin w))%nat).

(** ** Further notions *)

(** The characters [str.split()] keeps. *)
Definition non_blank (c : N) : bool := negb (is_whitespace c).

(** ** The menu *)

(** The answers the menu takes, once stripped. *)
Definition menu_choices : list text :=
  [str "1"; str "2"; str "3"; str "4"; str "5"; str "6"; str "7"].

(** One round of the loop of [get_modification_choice]. *)
Definition choice_round : M (option text) :=
  try_except
    (answer <- input (str "Enter your choice (1-7): ") ;;
     let choice := str_strip answer in
     if bool_decide (choice ∈ menu_choices) then
       match modification_map !! choice with
       | Some kind => ret (Some kind)
       | None => raise (KeyError choice)
       end
     else
       print (str "Please enter a number between 1 and 7.") ;;
       ret None)
    (fun e =>
       match e with
       | KeyboardInterrupt => Some (
           print (nl ++ str "Operation cancelled.") ;;
           sys_exit 0)
       | _ => None
       end).

(** The world after the menu has refused the answers [bad], one round each. *)
Fixpoint refused (bad : list text) (w : world) : world :=
  match bad with
  | [] => w
  | _ :: bad' =>
      refused bad'
        (emit (Printed (str "Please enter a number between 1 and 7."))
           (set_stdin (tail (stdin w))
              (emit (Prompted (str "Enter your choice (1-7): ")) w)))
  end.

(** The world after the eight lines of the menu. *)
Definition menu_shown (w : world) : world :=
  emit (Printed (str "7. No modification"))
    (emit (Printed (str "6. Remove extra spaces"))
       (emit (Printed (str "5. Double content"))
          (emit (Printed (str "4. Reverse content"))
             (emit (Printed (str "3. Convert to Title Case"))
                (emit (Printed (str "2. Convert to lowercase"))
                   (emit (Printed (str "1. Convert to UPPERCASE"))
                      (emit (Printed (nl ++ str "Choose modification type:"))
                         w))))))).

(** ** What leaves a computation, and what it may touch *)

Definition raises_only {A : Type} (allowed : exn -> Prop) (c : M A) : Prop :=
  forall w e, fst (c w) = Raise e -> allowed e.

(** The exceptions that can leave [main]. *)
Definition main_exception (e : exn) : Prop :=
  e = EOFError \/ e = KeyboardInterrupt \/ e = UnicodeEncodeError
  \/ e = SystemExit 0.

(** A path the user types, stripped, at some prompt of the run from [w0]. *)
Definition typed (w0 : world) (p : path) : Prop :=
  exists s, Line s ∈ stdin w0 /\ str_strip s = p.

(** A computation that, run on what is left of the console of [w0], reads
    from that console only and changes no file but at the paths typed. *)
Definition within (w0 : world) {A : Type} (c : M A) : Prop :=
  forall w, stdin w ⊆ stdin w0 ->
    stdin (snd (c w)) ⊆ stdin w0
    /\ forall p, ~ typed w0 p -> nodes (snd (c w)) !! p = nodes w !! p.

(** ** The script as it is run

    [main()] under the two handlers of the last lines of the source.  The
    text of an exception, [str(e)], is the platform's and is not carried by
    [exn]: it is the parameter [describe]. *)
Definition program (U : unicode_db) (describe : exn -> text) : M unit :=
  try_except (main U)
    (fun e =>
       match e with
       | KeyboardInterrupt => Some (
           print (nl ++ nl ++ str "Program interrupted by user. Goodbye!"))
       | SystemExit _ => None
       | e => Some (
           print (nl ++ [0x274C] ++ str " Unexpected error: " ++ describe e))
       end).

(** A world whose console is at its end. *)
Definition world_silent : world := {|
  nodes := {[ str "out.txt" := TextFile (str "old") ]};
  read_faults := ∅;
  write_faults := ∅;
  stdin := [];
  stdout := []
|}.

(** A console for the menu: two answers it refuses, then [ 3 ]. *)
Definition world_menu : world := {|
  nodes := ∅;
  read_faults := ∅;
  write_faults := ∅;
  stdin := [Line (str "9"); Line (str "x"); Line (str " 3 "); Line (str "next")];
  stdout := []
|}.

(** A console on which the menu is interrupted after one refused answer. *)
Definition world_interrupted : world := {|
  nodes := ∅;
  read_faults := ∅;
  write_faults := ∅;
  stdin := [Line (str "0"); Interrupt; Line (str "1")];
  stdout := []
|}.

(** The user answers with blanks. *)
Definition world_blank : world := {|
  nodes := {[ str "out.txt" := TextFile (str "old") ]};
  read_faults := ∅;
  write_faults := ∅;
  stdin := [Line (str "   "); Line (str "out.txt")];
  stdout := []
|}.

(** The user names a file that does not exist and does not try again. *)
Definition world_missing : world := {|
  nodes := {[ str "out.txt" := TextFile (str "old") ]};
  read_faults := ∅;
  write_faults := ∅;
  stdin := [Line (str "nope.txt"); Line (str "n"); Line (str "left")];
  stdout := []
|}.

(** Range tests on a code point beyond every range of the Latin table. *)
Ltac outside_ranges :=
  repeat match goal with
    | |- context [in_range ?lo ?hi ?c] =>
        replace (in_range lo hi c) with false
          by (symmetry; unfold in_range; apply andb_false_iff; right;
              apply N.leb_gt; lia)
    | |- context [N.eqb ?c ?k] =>
        replace (N.eqb c k) with false by (symmetry; apply N.eqb_neq; lia)
    end.

(** * Properties of the transformer *)

Section TransformerFacts.

Variable U : unicode_db.

Lemma modify_content_empty (kind : text) : modify_content U [] kind = [].
Proof. reflexivity. Qed.

Lemma modify_content_lookup (content kind : text) :
  content ≠ [] ->
  modify_content U content kind
  = default content (modification_types U content !! kind).
Proof. destruct content; [congruence | reflexivity]. Qed.

Lemma modify_content_upper (content : text) :
  modify_content U content (str "upper") = str_upper U content.
Proof. destruct content; reflexivity. Qed.

Lemma modify_content_lower (content : text) :
  modify_content U content (str "lower") = str_lower U content.
Proof. destruct content; reflexivity. Qed.

Lemma modify_content_title (content : text) :
  modify_content U content (str "title") = str_title U content.
Proof. destruct content; reflexivity. Qed.

Lemma modify_content_reverse (content : text) :
  modify_content U content (str "reverse") = rev content.
Proof. destruct content; reflexivity. Qed.

Lemma modify_content_double (content : text) :
  modify_content U content (str "double") = content ++ content.
Proof.
  destruct content as [|c content]; [reflexivity|].
  rewrite modify_content_lookup by discriminate.
  change (modification_types U (c :: content) !! str "double")
    with (Some (str_repeat (c :: content) 2)).
  simpl. by rewrite app_nil_r.
Qed.

Lemma modify_content_remove_spaces (content : text) :
  modify_content U content (str "remove_spaces")
  = str_join (str " ") (str_split content).
Proof. destruct content; reflexivity. Qed.

(** C6: the duplicate transform returns the content followed by itself, twice
    as long as the content. *)
Theorem duplicate_is_self_concatenation (content : text) :
  modify_content U content (str "double") = content ++ content
  /\ length (modify_content U content (str "double")) = (2 * length content)%nat.
Proof.
  rewrite modify_content_double. split; [reflexivity|].
  rewrite length_app. lia.
Qed.

(** C7: reversing twice gives the content back. *)
Theorem reverse_is_involution (content : text) :
  modify_content U (modify_content U content (str "reverse")) (str "reverse")
  = content.
Proof. rewrite !modify_content_reverse. apply rev_involutive. Qed.

(** C9: a modification type that is none of the seven known names leaves the
    content as it is. *)
Theorem unknown_kind_is_identity (content kind : text) :
  kind ∉ known_kinds ->
  modify_content U content kind = content.
Proof.
  intros Hkind. destruct content as [|c content]; [reflexivity|].
  rewrite modify_content_lookup by discriminate.
  unfold known_kinds in Hkind. rewrite !not_elem_of_cons in Hkind.
  destruct Hkind as (H1 & H2 & H3 & H4 & H5 & H6 & H7 & _).
  unfold modification_types.
  rewrite !lookup_insert_ne by congruence.
  by rewrite lookup_empty.
Qed.

End TransformerFacts.

Lemma unknown_kind_is_identity_witness :
  (str "shout" ∉ known_kinds)
  /\ modify_content latin_db (str "Hello") (str "shout") = str "Hello".
Proof.
  assert (H : str "shout" ∉ known_kinds).
  { unfold known_kinds. rewrite !not_elem_of_cons. vm_compute.
    repeat split; try discriminate. inversion 1. }
  split; [exact H | exact (unknown_kind_is_identity latin_db (str "Hello") (str "shout") H)].
Defined.

(** * Splitting and joining *)

Section SplitFacts.

Lemma pieces_of_blank_cons (c : N) (s : text) (pieces : list text) :
  is_whitespace c = true -> pieces_of s pieces -> pieces_of (c :: s) pieces.
Proof.
  intros Hc Hs. inversion Hs as [gap Hgap | gap piece rest ps Hgap]; subst.
  - apply pieces_none. by constructor.
  - apply (pieces_more (c :: gap)); try done. by constructor.
Qed.

Lemma pieces_of_first (piece rest : text) (pieces : list text) :
  piece <> [] -> solid piece -> starts_blank rest -> pieces_of rest pieces ->
  pieces_of (piece ++ rest) (piece :: pieces).
Proof.
  intros Hne Hpiece Hrest Hpieces.
  exact (pieces_more [] piece rest pieces (List.Forall_nil _) Hne Hpiece Hrest Hpieces).
Qed.

(** The loop of [str.split] meets the specification, whatever the run it has
    collected so far. *)
Lemma split_from_pieces (s word : text) :
  solid word -> pieces_of (word ++ s) (split_from word s).
Proof.
  revert word. induction s as [|c s IH]; intros word Hword.
  - destruct word as [|d word]; simpl.
    + apply pieces_none. constructor.
    + apply (pieces_of_first (d :: word) []); try done.
      apply pieces_none. constructor.
  - simpl. destruct (is_whitespace c) eqn:Hc.
    + assert (Hrest : pieces_of (c :: s) (split_from [] s)).
      { apply pieces_of_blank_cons; [done|]. apply (IH []). constructor. }
      destruct word as [|d word]; [exact Hrest|].
      apply (pieces_of_first (d :: word) (c :: s)); done.
    + replace (word ++ c :: s) with ((word ++ [c]) ++ s)
        by (by rewrite <- app_assoc).
      apply IH. apply Forall_app. split; [done|]. by repeat constructor.
Qed.

Lemma split_from_blank (gap s : text) :
  blank gap -> split_from [] (gap ++ s) = split_from [] s.
Proof.
  induction 1 as [|c gap Hc _ IH]; [reflexivity|]. simpl. by rewrite Hc.
Qed.

Lemma split_from_solid (piece word s : text) :
  solid piece -> split_from word (piece ++ s) = split_from (word ++ piece) s.
Proof.
  intros Hpiece. revert word.
  induction Hpiece as [|c piece Hc _ IH]; intros word.
  - by rewrite app_nil_r.
  - simpl. rewrite Hc, IH. by rewrite <- app_assoc.
Qed.

Lemma split_from_starts_blank (word s : text) :
  word <> [] -> starts_blank s ->
  split_from word s = word :: split_from [] s.
Proof.
  intros Hword Hs. destruct s as [|c s]; simpl in *.
  - by destruct word.
  - rewrite Hs. by destruct word.
Qed.

(** The specification has one solution only, the list [str.split] returns. *)
Lemma pieces_of_unique (s : text) (pieces : list text) :
  pieces_of s pieces -> pieces = str_split s.
Proof.
  unfold str_split.
  induction 1 as [gap Hgap | gap piece rest ps Hgap Hne Hpiece Hrest _ IH].
  - rewrite <- (app_nil_r gap). by rewrite split_from_blank.
  - rewrite split_from_blank, split_from_solid by done. simpl.
    rewrite split_from_starts_blank by done. by rewrite IH.
Qed.

Lemma pieces_of_solid (s : text) (pieces : list text) :
  pieces_of s pieces -> Forall (fun p => p <> [] /\ solid p) pieces.
Proof. induction 1; by constructor. Qed.

Lemma lstrip_solid_head (c : N) (s : text) :
  is_whitespace c = false -> lstrip (c :: s) = c :: s.
Proof. intros Hc. simpl. by rewrite Hc. Qed.

Lemma rstrip_solid_last (c : N) (s : text) :
  is_whitespace c = false -> rstrip (s ++ [c]) = s ++ [c].
Proof.
  intros Hc. unfold rstrip. rewrite rev_app_distr. simpl.
  rewrite Hc. simpl. by rewrite rev_involutive.
Qed.

Lemma solid_head (p : text) :
  p <> [] -> solid p -> exists c r, p = c :: r /\ is_whitespace c = false.
Proof.
  intros Hne Hp. destruct p as [|c r]; [done|].
  exists c, r. split; [done|]. by inversion Hp.
Qed.

Lemma solid_last (p : text) :
  p <> [] -> solid p -> exists r c, p = r ++ [c] /\ is_whitespace c = false.
Proof.
  intros Hne Hp. destruct (exists_last Hne) as (r & c & ->).
  exists r, c. split; [done|].
  apply Forall_app in Hp as [_ Hc]. by inversion Hc.
Qed.

Lemma join_head (sep : text) (pieces : list text) :
  pieces <> [] -> Forall (fun p => p <> [] /\ solid p) pieces ->
  exists c r, str_join sep pieces = c :: r /\ is_whitespace c = false.
Proof.
  intros Hne Hall. destruct pieces as [|p rest]; [done|].
  inversion Hall as [|? ? [Hp Hsolid] _]; subst.
  destruct (solid_head p Hp Hsolid) as (c & r & -> & Hc).
  destruct rest; simpl; eauto.
Qed.

Lemma join_last (sep : text) (pieces : list text) :
  pieces <> [] -> Forall (fun p => p <> [] /\ solid p) pieces ->
  exists r c, str_join sep pieces = r ++ [c] /\ is_whitespace c = false.
Proof.
  induction pieces as [|p rest IH]; [done|]. intros _ Hall.
  inversion Hall as [|? ? [Hp Hsolid] Hrest]; subst.
  destruct rest as [|q rest].
  - simpl. by apply solid_last.
  - destruct IH as (r & c & Hjoin & Hc); [done | done |].
    exists (p ++ sep ++ r), c. split; [|done].
    change (str_join sep (p :: q :: rest))
      with (p ++ sep ++ str_join sep (q :: rest)).
    rewrite Hjoin. by rewrite <- !app_assoc.
Qed.

(** Joined pieces have no whitespace left at either end. *)
Lemma strip_join (sep : text) (pieces : list text) :
  Forall (fun p => p <> [] /\ solid p) pieces ->
  str_strip (str_join sep pieces) = str_join sep pieces.
Proof.
  intros Hall. destruct (decide (pieces = [])) as [-> | Hne]; [reflexivity|].
  unfold str_strip.
  destruct (join_head sep pieces Hne Hall) as (c & r & Hhead & Hc).
  destruct (join_last sep pieces Hne Hall) as (r' & c' & Hlast & Hc').
  rewrite Hhead, lstrip_solid_head by done.
  rewrite <- Hhead, Hlast. by apply rstrip_solid_last.
Qed.

End SplitFacts.

Section CollapseWhitespace.

Variable U : unicode_db.

(** C5: the collapse-whitespace transform splits the content on runs of
    whitespace (the pieces are the ones, and the only ones, the specification
    of the splitting allows), joins the pieces with single spaces, and leaves
    no whitespace at either end; it maps [" a   b  c "] to ["a b c"]. *)
Theorem collapse_whitespace_splits_and_joins (content : text) :
  let result := modify_content U content (str "remove_spaces") in
  pieces_of content (str_split content)
  /\ (forall pieces, pieces_of content pieces -> pieces = str_split content)
  /\ result = str_join (str " ") (str_split content)
  /\ str_strip result = result
  /\ modify_content U (str " a   b  c ") (str "remove_spaces") = str "a b c".
Proof.
  assert (Hpieces : pieces_of content (str_split content)).
  { apply (split_from_pieces content []). constructor. }
  cbv zeta. rewrite modify_content_remove_spaces.
  split; [exact Hpieces|].
  split; [apply pieces_of_unique|].
  split; [reflexivity|].
  split; [|reflexivity].
  apply strip_join. by apply pieces_of_solid in Hpieces.
Qed.

End CollapseWhitespace.

(** * The writer *)

Section WriterFacts.

Variable U : unicode_db.

Lemma write_file_free (w : world) (filename : path) (content : text) :
  nodes w !! filename = None ->
  write_file U filename content w = write_attempt filename content w.
Proof.
  intros Hfree. unfold write_file, write_attempt, try_except, bind, os_path_exists.
  rewrite Hfree. rewrite bool_decide_eq_false_2; [reflexivity|].
  by intros [? ?].
Qed.

Lemma write_file_answered (w : world) (filename : path) (content answer : text)
    (rest : list event) :
  is_Some (nodes w !! filename) -> stdin w = Line answer :: rest ->
  write_file U filename content w
  = if bool_decide (str_lower U answer ≠ str "y")
    then (Return false,
          emit (Printed (str "Operation cancelled.")) (asked filename rest w))
    else write_attempt filename content (asked filename rest w).
Proof.
  intros Hexists Hstdin.
  unfold write_file, write_attempt, try_except, bind, os_path_exists, input.
  rewrite bool_decide_eq_true_2 by done. simpl. rewrite Hstdin.
  fold (asked filename rest w).
  destruct (bool_decide (str_lower U answer ≠ str "y")); reflexivity.
Qed.

Lemma write_attempt_fails (w : world) (filename : path) (content : text)
    (kind : os_kind) (msg : text) :
  open_write_fails w filename kind msg ->
  write_attempt filename content w
  = (Return false, emit (Printed (write_error_message filename kind msg)) w).
Proof.
  intros Hfail.
  unfold write_attempt, write_and_report, try_except, bind, open_write.
  destruct Hfail as [Hfault | (Hfault & Hdir & ->)]; rewrite Hfault.
  - by destruct kind.
  - by rewrite Hdir.
Qed.

Lemma write_attempt_succeeds (w : world) (filename : path) (content : text) :
  write_faults w !! filename = None ->
  (forall msg, nodes w !! filename <> Some (Directory msg)) ->
  encodable content = true ->
  write_attempt filename content w
  = (Return true,
     emit (Printed ([0x2713] ++ str " Successfully wrote to " ++ filename))
       (set_nodes (insert filename (TextFile content)) w)).
Proof.
  intros Hfault Hdir Henc.
  unfold write_attempt, write_and_report, try_except, bind, open_write, file_write.
  rewrite Hfault.
  assert (Hopen : match nodes w !! filename with
                  | Some (Directory msg) => (Raise (OSError EOTHER msg), w)
                  | _ => (Return tt, set_nodes (insert filename (TextFile [])) w)
                  end
                  = (Return tt, set_nodes (insert filename (TextFile [])) w)).
  { destruct (nodes w !! filename) as [[| |msg]|] eqn:Hnode; try reflexivity.
    by destruct (Hdir msg). }
  rewrite Hopen, Henc. unfold print, ret, emit, set_nodes. simpl.
  by rewrite insert_insert_eq.
Qed.

Lemma write_file_declined (w : world) (filename : path) (content answer : text)
    (rest : list event) :
  is_Some (nodes w !! filename) -> stdin w = Line answer :: rest ->
  str_lower U answer ≠ str "y" ->
  write_file U filename content w
  = (Return false,
     emit (Printed (str "Operation cancelled.")) (asked filename rest w)).
Proof.
  intros Hexists Hstdin Hno.
  rewrite (write_file_answered w filename content answer rest) by done.
  by rewrite bool_decide_eq_true_2.
Qed.

Lemma write_file_confirmed (w : world) (filename : path) (content answer : text)
    (rest : list event) :
  is_Some (nodes w !! filename) -> stdin w = Line answer :: rest ->
  str_lower U answer = str "y" ->
  write_file U filename content w
  = write_attempt filename content (asked filename rest w).
Proof.
  intros Hexists Hstdin Hyes.
  rewrite (write_file_answered w filename content answer rest) by done.
  rewrite bool_decide_eq_false_2; [reflexivity|]. by intros Hno.
Qed.

(** A refused opening makes [write_file] return [False], whether the path
    was free or the overwrite was confirmed. *)
Lemma write_file_failed (w : world) (filename : path) (content : text)
    (kind : os_kind) (msg : text) :
  open_write_fails w filename kind msg ->
  nodes w !! filename = None
  \/ (exists answer rest,
        stdin w = Line answer :: rest /\ str_lower U answer = str "y") ->
  fst (write_file U filename content w) = Return false
  /\ last (stdout (snd (write_file U filename content w)))
     = Some (Printed (write_error_message filename kind msg))
  /\ nodes (snd (write_file U filename content w)) = nodes w.
Proof.
  intros Hfail Hattempt.
  destruct (nodes w !! filename) as [n|] eqn:Hnode.
  - destruct Hattempt as [? | (answer & rest & Hstdin & Hyes)]; [done|].
    rewrite (write_file_confirmed w filename content answer rest) by done.
    rewrite (write_attempt_fails _ _ _ kind msg).
    + simpl. by rewrite last_snoc.
    + exact Hfail.
  - rewrite write_file_free by done.
    rewrite (write_attempt_fails _ _ _ kind msg) by done.
    simpl. by rewrite last_snoc.
Qed.

(** Whatever comes from the console, short of an answer that lowercases to
    ["y"], no file of an existing path is touched: the end of the input and
    an interrupt leave [write_file] by an exception before [open]. *)
Lemma write_file_keeps_files_unless_confirmed (w : world) (filename : path)
    (content : text) :
  is_Some (nodes w !! filename) ->
  (forall answer rest,
     stdin w = Line answer :: rest -> str_lower U answer ≠ str "y") ->
  nodes (snd (write_file U filename content w)) = nodes w.
Proof.
  intros Hexists Hno.
  destruct (stdin w) as [|[answer|] rest] eqn:Hstdin.
  - unfold write_file, try_except, bind, os_path_exists, input.
    rewrite bool_decide_eq_true_2 by done. simpl. by rewrite Hstdin.
  - rewrite (write_file_declined w filename content answer rest); eauto.
  - unfold write_file, try_except, bind, os_path_exists, input.
    rewrite bool_decide_eq_true_2 by done. simpl. by rewrite Hstdin.
Qed.

(** C3: when the user declines the overwrite, [write_file] returns [False]
    and no file is touched: the file system is the one before the call, and
    so is the content of the file asked about. *)
Theorem declined_overwrite_writes_nothing (w : world) (filename : path)
    (content answer : text) (rest : list event) :
  is_Some (nodes w !! filename) ->
  stdin w = Line answer :: rest ->
  str_lower U answer ≠ str "y" ->
  fst (write_file U filename content w) = Return false
  /\ nodes (snd (write_file U filename content w)) = nodes w
  /\ nodes (snd (write_file U filename content w)) !! filename
     = nodes w !! filename.
Proof.
  intros Hexists Hstdin Hno.
  rewrite (write_file_declined w filename content answer rest) by done.
  done.
Qed.

(** C1, as the code has it: a declined overwrite prints
    ["Operation cancelled."] and returns [False], and a refused opening
    ([PermissionError] or another [OSError]) prints an error message and
    returns [False] as well; the two differ by the message on the console,
    the value returned to the caller is the same. *)
Theorem declined_and_failed_both_return_false
    (w_declined w_failed : world) (filename : path) (content answer : text)
    (rest : list event) (kind : os_kind) (msg : text) :
  is_Some (nodes w_declined !! filename) ->
  stdin w_declined = Line answer :: rest ->
  str_lower U answer ≠ str "y" ->
  open_write_fails w_failed filename kind msg ->
  nodes w_failed !! filename = None
  \/ (exists answer' rest',
        stdin w_failed = Line answer' :: rest'
        /\ str_lower U answer' = str "y") ->
  fst (write_file U filename content w_declined) = Return false
  /\ fst (write_file U filename content w_failed) = Return false
  /\ last (stdout (snd (write_file U filename content w_declined)))
     = Some (Printed (str "Operation cancelled."))
  /\ last (stdout (snd (write_file U filename content w_failed)))
     = Some (Printed (write_error_message filename kind msg))
  /\ write_error_message filename kind msg ≠ str "Operation cancelled.".
Proof.
  intros Hexists Hstdin Hno Hfail Hattempt.
  destruct (write_file_failed w_failed filename content kind msg Hfail Hattempt)
    as (Hresult & Hmessage & _).
  rewrite (write_file_declined w_declined filename content answer rest) by done.
  repeat split; try done.
  - simpl. by rewrite last_snoc.
  - by destruct kind.
Qed.

(** C10: on an existing path the writing goes on exactly when the answer
    lowercases to ["y"]: then [write_file] does what the writing under its
    handlers does, and writes [content] to the file when the file can be
    opened and [content] encoded; any other answer makes it return [False]
    with the file system untouched.  ["yes"], ["Y "] and [""] are such other
    answers, ["y"] and ["Y"] are not. *)
Theorem overwrite_goes_on_iff_answer_lowercases_to_y (w : world)
    (filename : path) (content answer : text) (rest : list event) :
  is_Some (nodes w !! filename) ->
  stdin w = Line answer :: rest ->
  (str_lower U answer = str "y" ->
     write_file U filename content w
     = write_attempt filename content (asked filename rest w)
     /\ (write_faults w !! filename = None ->
         (forall msg, nodes w !! filename <> Some (Directory msg)) ->
         encodable content = true ->
         fst (write_file U filename content w) = Return true
         /\ nodes (snd (write_file U filename content w))
            = <[filename := TextFile content]> (nodes w)))
  /\ (str_lower U answer ≠ str "y" ->
       fst (write_file U filename content w) = Return false
       /\ nodes (snd (write_file U filename content w)) = nodes w)
  /\ (forall other, other ∈ [str "yes"; str "Y "; str ""] ->
       fst (write_file latin_db filename content
              (set_stdin (Line other :: rest) w)) = Return false
       /\ nodes (snd (write_file latin_db filename content
                        (set_stdin (Line other :: rest) w))) = nodes w)
  /\ str_lower latin_db (str "y") = str "y"
  /\ str_lower latin_db (str "Y") = str "y".
Proof.
  intros Hexists Hstdin. split; [|split; [|split]].
  - intros Hyes.
    rewrite (write_file_confirmed w filename content answer rest) by done.
    split; [reflexivity|]. intros Hfault Hdir Henc.
    by rewrite write_attempt_succeeds.
  - intros Hno.
    by rewrite (write_file_declined w filename content answer rest).
  - intros other Hother.
    rewrite !elem_of_cons, elem_of_nil in Hother.
    assert (Hno : str_lower latin_db other ≠ str "y")
      by (destruct Hother as [-> | [-> | [-> | []]]]; by vm_compute).
    unfold write_file, try_except, bind, os_path_exists, input. simpl.
    rewrite bool_decide_eq_true_2 by done. simpl.
    by rewrite (bool_decide_eq_true_2 _ Hno).
  - split; reflexivity.
Qed.

End WriterFacts.

(** C1 as the specification states it fails: the caller of [write_file] sees
    the same value after a declined overwrite and after a denied permission,
    so nothing computed from that value tells [Declined] from [Failure]. *)
Lemma declined_is_not_told_from_failure :
  let declined := fst (write_file latin_db (str "out.txt") (str "new") world_declining) in
  let failed := fst (write_file latin_db (str "out.txt") (str "new") world_denying) in
  declined = Return false
  /\ failed = Return false
  /\ ~ (exists classify : outcome bool -> write_outcome,
          classify declined = Declined /\ classify failed = Failure).
Proof.
  assert (Hd : fst (write_file latin_db (str "out.txt") (str "new") world_declining)
               = Return false) by (vm_compute; reflexivity).
  assert (Hf : fst (write_file latin_db (str "out.txt") (str "new") world_denying)
               = Return false) by (vm_compute; reflexivity).
  cbv zeta. rewrite Hd, Hf. split; [done|]. split; [done|].
  intros (classify & H1 & H2). congruence.
Qed.

Lemma declined_overwrite_writes_nothing_witness :
  fst (write_file latin_db (str "out.txt") (str "new") world_declining)
  = Return false
  /\ nodes (snd (write_file latin_db (str "out.txt") (str "new") world_declining))
     = nodes world_declining
  /\ nodes (snd (write_file latin_db (str "out.txt") (str "new") world_declining))
       !! str "out.txt"
     = nodes world_declining !! str "out.txt".
Proof.
  apply (declined_overwrite_writes_nothing latin_db world_declining
           (str "out.txt") (str "new") (str "n") []).
  - exists (TextFile (str "old")). reflexivity.
  - reflexivity.
  - vm_compute. discriminate.
Defined.

Lemma declined_and_failed_both_return_false_witness :
  fst (write_file latin_db (str "out.txt") (str "new") world_declining)
  = Return false
  /\ fst (write_file latin_db (str "out.txt") (str "new") world_denying)
     = Return false
  /\ last (stdout (snd (write_file latin_db (str "out.txt") (str "new")
                         world_declining)))
     = Some (Printed (str "Operation cancelled."))
  /\ last (stdout (snd (write_file latin_db (str "out.txt") (str "new")
                         world_denying)))
     = Some (Printed (write_error_message (str "out.txt") EACCES
                        (str "[Errno 13] Permission denied: 'out.txt'")))
  /\ write_error_message (str "out.txt") EACCES
       (str "[Errno 13] Permission denied: 'out.txt'")
     ≠ str "Operation cancelled.".
Proof.
  apply (declined_and_failed_both_return_false latin_db
           world_declining world_denying (str "out.txt") (str "new")
           (str "n") [] EACCES (str "[Errno 13] Permission denied: 'out.txt'")).
  - exists (TextFile (str "old")). reflexivity.
  - reflexivity.
  - vm_compute. discriminate.
  - left. reflexivity.
  - right. exists (str "y"), []. split; reflexivity.
Defined.

Lemma overwrite_goes_on_iff_answer_lowercases_to_y_witness :
  fst (write_file latin_db (str "out.txt") (str "new") world_confirming)
  = Return true
  /\ nodes (snd (write_file latin_db (str "out.txt") (str "new") world_confirming))
     = <[str "out.txt" := TextFile (str "new")]> (nodes world_confirming).
Proof.
  destruct (overwrite_goes_on_iff_answer_lowercases_to_y latin_db
              world_confirming (str "out.txt") (str "new") (str "Y") [])
    as [Hyes _].
  - exists (TextFile (str "old")). reflexivity.
  - reflexivity.
  - destruct Hyes as [_ Hwritten]; [reflexivity|].
    apply Hwritten.
    + reflexivity.
    + intros msg. vm_compute. discriminate.
    + reflexivity.
Defined.

(** * The preview *)

Lemma preview_long (modified_content : text) :
  (200 < length modified_content)%nat ->
  preview modified_content = take 200 modified_content ++ str "...".
Proof.
  intros Hlong. unfold preview.
  by rewrite (proj2 (Nat.ltb_lt _ _) Hlong).
Qed.

Lemma preview_short (modified_content : text) :
  (length modified_content <= 200)%nat ->
  preview modified_content = modified_content.
Proof.
  intros Hshort. unfold preview.
  rewrite (proj2 (Nat.ltb_ge _ _) Hshort).
  rewrite take_ge by done. apply app_nil_r.
Qed.

(** C8: the preview is the first 200 characters followed by ["..."] when the
    result has more than 200 characters, and the whole result, without
    marker, otherwise; a result of 250 characters gives 200 characters and
    the marker, a result of 50 characters gives its 50 characters.  It is the
    text [main] prints under ["Preview:"]. *)
Theorem preview_shows_first_200_and_marker (modified_content : text) :
  ((200 < length modified_content)%nat ->
     preview modified_content = take 200 modified_content ++ str "..."
     /\ length (take 200 modified_content) = 200%nat)
  /\ ((length modified_content <= 200)%nat ->
       preview modified_content = modified_content)
  /\ (length modified_content = 250%nat ->
       preview modified_content = take 200 modified_content ++ str "..."
       /\ length (take 200 modified_content) = 200%nat
       /\ length (preview modified_content) = 203%nat)
  /\ (length modified_content = 50%nat ->
       preview modified_content = modified_content
       /\ length (preview modified_content) = 50%nat)
  /\ (forall (content : text) (output_filename : path) (w : world),
       fst (show_preview content modified_content output_filename w) = Return tt
       /\ Printed (nl ++ str "Preview:" ++ nl ++ preview modified_content)
          ∈ stdout (snd (show_preview content modified_content output_filename w))).
Proof.
  split; [|split; [|split; [|split]]].
  - intros Hlong. split; [by apply preview_long|].
    rewrite length_take. lia.
  - apply preview_short.
  - intros H250. rewrite preview_long by lia.
    rewrite length_app, length_take, H250. by repeat split.
  - intros H50. rewrite preview_short by lia. by split.
  - intros content output_filename w. split; [reflexivity|].
    unfold show_preview, bind, print, emit. simpl.
    rewrite !elem_of_app, !list_elem_of_singleton. tauto.
Qed.

Example preview_of_250_characters :
  preview (str_repeat (str "0123456789") 25)
  = str_repeat (str "0123456789") 20 ++ str "...".
Proof. vm_compute. reflexivity. Qed.

Example preview_of_50_characters :
  preview (str_repeat (str "0123456789") 5) = str_repeat (str "0123456789") 5.
Proof. vm_compute. reflexivity. Qed.

(** * Title case *)

Section TitleFacts.

Variable U : unicode_db.

Lemma title_char_at (before after : text) (c : N) :
  title_char U (before ++ c :: after) (length before) c
  = if cased_before U before then lower_ucs4 U (rev before) c after
    else to_title_full U c.
Proof.
  unfold cased_before.
  destruct (decide (before = [])) as [-> | Hne]; [reflexivity|].
  destruct (exists_last Hne) as (pre & p & ->).
  rewrite last_snoc, length_app. simpl.
  replace (length pre + 1)%nat with (S (length pre)) by lia. simpl.
  rewrite <- app_assoc. simpl.
  rewrite list_lookup_middle by done.
  destruct (is_cased U p); [|reflexivity].
  replace (S (length pre)) with (length (pre ++ [p]))
    by (rewrite length_app; simpl; lia).
  replace (pre ++ p :: c :: after) with ((pre ++ [p]) ++ c :: after)
    by (by rewrite <- app_assoc).
  rewrite take_app_length.
  replace (S (length (pre ++ [p]))) with (length ((pre ++ [p]) ++ [c]))
    by (rewrite !length_app; simpl; lia).
  replace ((pre ++ [p]) ++ c :: after) with (((pre ++ [p]) ++ [c]) ++ after)
    by (by rewrite <- !app_assoc).
  by rewrite drop_app_length.
Qed.

(** The loop of [do_title] computes title case by position. *)
Lemma do_title_by_case (before after : text) :
  do_title U (cased_before U before) (rev before) after
  = concat (imap (fun i c => title_char U (before ++ after) (length before + i) c)
              after).
Proof.
  revert before. induction after as [|c after IH]; intros before; [reflexivity|].
  simpl. rewrite Nat.add_0_r, title_char_at. f_equal.
  specialize (IH (before ++ [c])).
  rewrite rev_app_distr in IH. simpl in IH.
  unfold cased_before in IH at 1. rewrite last_snoc in IH.
  rewrite IH. f_equal. apply imap_ext. intros i d _. simpl.
  rewrite <- app_assoc, length_app. simpl. f_equal. lia.
Qed.

Lemma str_title_by_case (content : text) :
  str_title U content = title_by_case U content.
Proof. exact (do_title_by_case [] content). Qed.

End TitleFacts.

(** C2 as the specification states it fails: an apostrophe, a hyphen and a
    digit do start a new word for the title-case transform, where title case
    over whitespace-delimited words leaves the letter behind them small. *)
Lemma title_case_restarts_after_apostrophe :
  modify_content latin_db (str "they're") (str "title") = str "They'Re"
  /\ whitespace_title latin_db (str "they're") = str "They're"
  /\ modify_content latin_db (str "hello-world") (str "title") = str "Hello-World"
  /\ whitespace_title latin_db (str "hello-world") = str "Hello-world"
  /\ modify_content latin_db (str "3rd") (str "title") = str "3Rd"
  /\ whitespace_title latin_db (str "3rd") = str "3rd"
  /\ ~ (forall content,
          modify_content latin_db content (str "title")
          = whitespace_title latin_db content).
Proof.
  repeat (split; [vm_compute; reflexivity|]).
  intros Hclaim. specialize (Hclaim (str "they're")).
  vm_compute in Hclaim. discriminate.
Qed.

(** C2, as the code has it: the title-case transform titlecases the first
    character and every character that follows a caseless character, and
    lowercases every character that follows a cased one; a word starts anew
    after whitespace and after any other caseless character, as in
    ["They'Re Hello-World 3Rd"]. *)
Theorem title_case_restarts_after_caseless (U : unicode_db) (content : text) :
  modify_content U content (str "title") = title_by_case U content
  /\ modify_content latin_db (str "they're hello-world 3rd") (str "title")
     = str "They'Re Hello-World 3Rd".
Proof.
  split; [|vm_compute; reflexivity].
  rewrite modify_content_title. apply str_title_by_case.
Qed.

(** * Upper and lower case *)

Section CaseFacts.

Variable U : unicode_db.

Hypothesis stable : case_stable U.

Lemma str_upper_stable (s : text) :
  Forall (fun d => to_upper_full U d = [d]) (str_upper U s).
Proof.
  destruct stable as (Hupper & _).
  induction s as [|c s IH]; [constructor|].
  unfold str_upper. simpl. apply Forall_app. split; [|exact IH].
  apply Forall_forall. intros d Hd. by apply (Hupper c).
Qed.

Lemma lower_ucs4_stable (before : text) (c : N) (after : text) :
  Forall (fun d => to_lower_full U d = [d]) (lower_ucs4 U before c after).
Proof.
  destruct stable as (_ & Hlower & Hfinal & Hsmall).
  unfold lower_ucs4. destruct (c =? 0x3A3).
  - constructor; [|constructor]. unfold handle_capital_sigma.
    repeat match goal with |- context [if ?b then _ else _] => destruct b end;
      repeat match goal with
        | |- context [match ?o with Some _ => _ | None => _ end] => destruct o
        end;
      repeat match goal with |- context [if ?b then _ else _] => destruct b end;
      assumption.
  - apply Forall_forall. intros d Hd. by apply (Hlower c).
Qed.

Lemma do_lower_stable (before s : text) :
  Forall (fun d => to_lower_full U d = [d]) (do_lower U before s).
Proof.
  revert before. induction s as [|c s IH]; intros before; [constructor|].
  simpl. apply Forall_app. split; [apply lower_ucs4_stable | apply IH].
Qed.

(** C4, as the code has it: every character of the to-upper transform is its
    own uppercase form, so no letter that has another uppercase form is left
    (a lowercase letter without one stays), and every character of the
    to-lower transform is its own lowercase form. *)
Theorem upper_and_lower_leave_only_fixed_characters (content : text) :
  Forall (fun d => to_upper_full U d = [d])
    (modify_content U content (str "upper"))
  /\ Forall (fun d => to_lower_full U d = [d])
       (modify_content U content (str "lower")).
Proof.
  rewrite modify_content_upper, modify_content_lower. split.
  - apply str_upper_stable.
  - apply do_lower_stable.
Qed.

End CaseFacts.

(** ** The Latin table is stable *)

Lemma forallb_below (P : N -> bool) (n : nat) :
  forallb P (map N.of_nat (seq 0 n)) = true ->
  forall c, c < N.of_nat n -> P c = true.
Proof.
  intros Hall c Hc. rewrite forallb_forall in Hall. apply Hall.
  apply in_map_iff. exists (N.to_nat c). split; [apply N2Nat.id|].
  apply in_seq. lia.
Qed.

Lemma latin_caseless_above (c : N) :
  0x3D2 < c -> latin_to_upper c = [c] /\ latin_to_lower c = [c].
Proof.
  intros Hc.
  unfold latin_to_upper, latin_to_lower, latin_is_lowercase, latin_is_uppercase.
  outside_ranges. by split.
Qed.

Lemma latin_fixed_by_below :
  forall c, c < 0x3D3 ->
  fixed_by latin_to_upper c && fixed_by latin_to_lower c = true.
Proof.
  apply (forallb_below
           (fun c => fixed_by latin_to_upper c && fixed_by latin_to_lower c) 979).
  vm_compute. reflexivity.
Qed.

Lemma latin_db_case_stable : case_stable latin_db.
Proof.
  assert (Hfixed : forall c,
             fixed_by latin_to_upper c && fixed_by latin_to_lower c = true).
  { intros c. destruct (N.lt_ge_cases c 0x3D3) as [Hlt | Hge].
    - by apply latin_fixed_by_below.
    - destruct (latin_caseless_above c) as [Hup Hlo]; [lia|].
      unfold fixed_by. rewrite Hup, Hlo. simpl.
      rewrite !bool_decide_eq_true_2; done. }
  repeat split; try reflexivity.
  - intros c d Hd. specialize (Hfixed c).
    apply andb_true_iff in Hfixed as [Hup _].
    unfold fixed_by in Hup. rewrite forallb_forall in Hup.
    apply list_elem_of_In in Hd. apply Hup in Hd.
    by apply bool_decide_eq_true_1 in Hd.
  - intros c d Hd. specialize (Hfixed c).
    apply andb_true_iff in Hfixed as [_ Hlo].
    unfold fixed_by in Hlo. rewrite forallb_forall in Hlo.
    apply list_elem_of_In in Hd. apply Hlo in Hd.
    by apply bool_decide_eq_true_1 in Hd.
Qed.

(** On ASCII content the two transforms do clear the other case. *)
Lemma latin_ascii_cases :
  forall c, c < 128 ->
  (negb (c =? 0x3A3)
   && forallb (fun d => negb (latin_is_lowercase d)) (latin_to_upper c)
   && forallb (fun d => negb (latin_is_uppercase d)) (latin_to_lower c)) = true.
Proof.
  apply (forallb_below
           (fun c => negb (c =? 0x3A3)
                     && forallb (fun d => negb (latin_is_lowercase d)) (latin_to_upper c)
                     && forallb (fun d => negb (latin_is_uppercase d)) (latin_to_lower c))
           128).
  vm_compute. reflexivity.
Qed.

Lemma ascii_upper_has_no_lowercase (content : text) :
  Forall (fun c => c < 128) content ->
  Forall (fun d => is_lowercase latin_db d = false) (str_upper latin_db content).
Proof.
  induction 1 as [|c content Hc _ IH]; [constructor|].
  unfold str_upper. simpl. apply Forall_app. split; [|exact IH].
  pose proof (latin_ascii_cases c Hc) as Hcase.
  apply andb_true_iff in Hcase as [Hcase _].
  apply andb_true_iff in Hcase as [_ Hupper].
  rewrite forallb_forall in Hupper. apply Forall_forall. intros d Hd.
  apply list_elem_of_In, Hupper in Hd. by apply negb_true_iff in Hd.
Qed.

Lemma ascii_lower_has_no_uppercase (content : text) :
  Forall (fun c => c < 128) content ->
  Forall (fun d => is_uppercase latin_db d = false) (str_lower latin_db content).
Proof.
  unfold str_lower. generalize (@nil N) as before.
  intros before Hall. revert before.
  induction Hall as [|c content Hc _ IH]; intros before; [constructor|].
  simpl. apply Forall_app. split; [|apply IH].
  pose proof (latin_ascii_cases c Hc) as Hcase.
  apply andb_true_iff in Hcase as [Hcase Hlower].
  apply andb_true_iff in Hcase as [Hsigma _].
  apply negb_true_iff in Hsigma. unfold lower_ucs4. rewrite Hsigma.
  rewrite forallb_forall in Hlower. apply Forall_forall. intros d Hd.
  apply list_elem_of_In, Hlower in Hd. by apply negb_true_iff in Hd.
Qed.

(** C4 as the specification states it fails: U+0138 is a lowercase letter
    that the to-upper transform keeps, and U+03D2 is an uppercase letter that
    the to-lower transform keeps. *)
Lemma upper_keeps_a_lowercase_letter :
  modify_content latin_db [0x138] (str "upper") = [0x138]
  /\ is_lowercase latin_db 0x138 = true
  /\ modify_content latin_db [0x3D2] (str "lower") = [0x3D2]
  /\ is_uppercase latin_db 0x3D2 = true
  /\ ~ (forall content,
         Forall (fun c => is_lowercase latin_db c = false)
           (modify_content latin_db content (str "upper")))
  /\ ~ (forall content,
         Forall (fun c => is_uppercase latin_db c = false)
           (modify_content latin_db content (str "lower"))).
Proof.
  repeat (split; [vm_compute; reflexivity|]). split.
  - intros Hclaim. specialize (Hclaim [0x138]).
    inversion Hclaim as [|? ? Hc _]. vm_compute in Hc. discriminate.
  - intros Hclaim. specialize (Hclaim [0x3D2]).
    inversion Hclaim as [|? ? Hc _]. vm_compute in Hc. discriminate.
Qed.

Lemma upper_and_lower_leave_only_fixed_characters_witness :
  Forall (fun d => to_upper_full latin_db d = [d])
    (modify_content latin_db (str "Hello, World") (str "upper"))
  /\ Forall (fun d => to_lower_full latin_db d = [d])
       (modify_content latin_db (str "Hello, World") (str "lower")).
Proof.
  apply (upper_and_lower_leave_only_fixed_characters latin_db
           latin_db_case_stable (str "Hello, World")).
Defined.

(** * The whole program *)

(** The run of the specification: [hello] read, upper case chosen, a fresh
    output path; the output file holds [HELLO] and both lengths are 5. *)
Example main_hello :
  let (result, w) := main latin_db world_hello in
  result = Return tt
  /\ nodes w !! str "out.txt" = Some (TextFile (str "HELLO"))
  /\ nodes w !! str "in.txt" = Some (TextFile (str "hello"))
  /\ Printed (str "Original length: 5 characters") ∈ stdout w
  /\ Printed (str "Modified length: 5 characters") ∈ stdout w
  /\ Printed (nl ++ str "Preview:" ++ nl ++ str "HELLO") ∈ stdout w
  /\ last (stdout w) = Some (Printed ([0x1F4C1] ++ str " Output saved to: out.txt")).
Proof.
  vm_compute. repeat split; apply list_elem_of_In; simpl; tauto.
Qed.

Section Termination.

Variable U : unicode_db.

Lemma tame_ret {A : Type} (a : A) : tame (ret a).
Proof. intros w. by split. Qed.

Lemma tame_raise {A : Type} (e : exn) : tame (@raise A e).
Proof. intros w. by split. Qed.

Lemma tame_print (s : text) : tame (print s).
Proof. intros w. by split. Qed.

Lemma tame_bind {A B : Type} (c : M A) (k : A -> M B) :
  tame c -> (forall a, tame (k a)) -> tame (bind c k).
Proof.
  intros Hc Hk w. unfold bind. specialize (Hc w).
  destruct (c w) as [[a | e |] w'] eqn:Hcw; simpl in *.
  - destruct (Hk a w') as [Hfuel Hlen]. split; [done | lia].
  - split; [done | lia].
  - by destruct Hc.
Qed.

Lemma tame_try_except {A : Type} (body : M A) (handlers : exn -> option (M A)) :
  tame body -> (forall e h, handlers e = Some h -> tame h) ->
  tame (try_except body handlers).
Proof.
  intros Hbody Hhandlers w. unfold try_except. specialize (Hbody w).
  destruct (body w) as [[a | e |] w'] eqn:Hbw; simpl in *; try done.
  destruct (handlers e) as [h|] eqn:He; [|done].
  destruct (Hhandlers e h He w') as [Hfuel Hlen]. split; [done | lia].
Qed.

Lemma tame_input (prompt : text) : tame (input prompt).
Proof.
  intros w. unfold input. simpl.
  destruct (stdin w) as [|[s|] rest] eqn:Hstdin; simpl; rewrite ?Hstdin; simpl;
    split; try done; lia.
Qed.

Lemma tame_open_read (p : path) : tame (open_read p).
Proof.
  intros w. unfold open_read.
  destruct (read_faults w !! p) as [[kind msg]|]; [by split|].
  destruct (nodes w !! p) as [[| |]|]; by split.
Qed.

Lemma tame_open_write (p : path) : tame (open_write p).
Proof.
  intros w. unfold open_write.
  destruct (write_faults w !! p) as [[kind msg]|]; [by split|].
  destruct (nodes w !! p) as [[| |]|]; by split.
Qed.

Lemma tame_file_write (p : path) (content : text) : tame (file_write p content).
Proof. intros w. unfold file_write. destruct (encodable content); by split. Qed.

Lemma tame_os_path_exists (p : path) : tame (os_path_exists p).
Proof. intros w. by split. Qed.

Ltac tame_step :=
  first
    [ apply tame_ret | apply tame_raise | apply tame_print | apply tame_input
    | apply tame_open_read | apply tame_open_write | apply tame_file_write
    | apply tame_os_path_exists
    | apply tame_bind; [|intros ?]
    | progress cbv zeta
    | match goal with
      | |- tame (if ?b then _ else _) => destruct b
      | |- tame (match ?x with _ => _ end) => destruct x
      end ].

Lemma tame_read_file (filename : path) : tame (read_file filename).
Proof.
  apply tame_try_except; [repeat tame_step|].
  intros e h He. destruct e as [[| |] msg| | | | | |]; simpl in He;
    inversion He; subst; repeat tame_step.
Qed.

Lemma tame_write_file (filename : path) (content : text) :
  tame (write_file U filename content).
Proof.
  apply tame_try_except; [unfold write_and_report; repeat tame_step|].
  intros e h He. destruct e as [[| |] msg| | | | | |]; simpl in He;
    inversion He; subst; repeat tame_step.
Qed.

(** A body that starts by reading the console is eager. *)
Lemma eager_input {A : Type} (prompt : text) (k : text -> M (option A)) :
  (forall answer, tame (k answer)) -> eager (bind (input prompt) k).
Proof.
  intros Hk w. unfold bind, input. simpl.
  destruct (stdin w) as [|[s|] rest] eqn:Hstdin; simpl.
  - rewrite Hstdin. by repeat split.
  - destruct (Hk s (set_stdin rest (emit (Prompted prompt) w))) as [Hfuel Hlen].
    simpl in Hlen. repeat split; [done | lia | intros _; lia].
  - repeat split; [done | lia | done].
Qed.

Lemma eager_try_except {A : Type} (body : M (option A))
    (handlers : exn -> option (M (option A))) :
  eager body ->
  (forall e h, handlers e = Some h ->
     tame h /\ forall w, fst (h w) <> Return None) ->
  eager (try_except body handlers).
Proof.
  intros Hbody Hhandlers w. unfold try_except. specialize (Hbody w).
  destruct (body w) as [[a | e |] w'] eqn:Hbw; simpl in *; try done.
  destruct (handlers e) as [h|] eqn:He; [|done].
  destruct (Hhandlers e h He) as [Htame Hleaves].
  destruct (Htame w') as [Hfuel Hlen].
  repeat split; [done | lia | intros Hnone; by destruct (Hleaves w')].
Qed.

Lemma loop_tame {A : Type} (body : M (option A)) :
  eager body ->
  forall fuel w, (length (stdin w) < fuel)%nat ->
    fst (loop body fuel w) <> OutOfFuel
    /\ (length (stdin (snd (loop body fuel w))) <= length (stdin w))%nat.
Proof.
  intros Hbody. induction fuel as [|fuel IH]; intros w Hfuel; [lia|].
  simpl. unfold bind. destruct (Hbody w) as (Hrun & Hlen & Hround).
  destruct (body w) as [[[a|] | e |] w'] eqn:Hbw; simpl in *; try done.
  destruct (IH w') as [Hrest Hlen']; [specialize (Hround eq_refl); lia|].
  split; [done | lia].
Qed.

Lemma tame_while_true {A : Type} (body : M (option A)) :
  eager body -> tame (while_true body).
Proof. intros Hbody w. unfold while_true. apply loop_tame; [done | lia]. Qed.

Lemma tame_get_modification_choice : tame get_modification_choice.
Proof.
  unfold get_modification_choice. repeat (apply tame_bind; [apply tame_print|intros _]).
  apply tame_while_true. apply eager_try_except.
  - apply eager_input. intros answer. repeat tame_step.
  - intros e h He. destruct e as [[| |] msg| | | | | |]; simpl in He;
      inversion He; subst.
    split; [unfold sys_exit; repeat tame_step | done].
Qed.

Lemma eager_input_round : eager (input_round U).
Proof.
  apply eager_input. intros answer. cbv zeta.
  destruct (str_strip answer); [repeat tame_step|].
  apply tame_bind; [apply tame_read_file|]. intros content. repeat tame_step.
Qed.

Lemma eager_output_round (modified_content : text) :
  eager (output_round U modified_content).
Proof.
  apply eager_input. intros answer. cbv zeta.
  destruct (str_strip answer); [repeat tame_step|].
  apply tame_bind; [apply tame_write_file|]. intros written. repeat tame_step.
Qed.

Lemma tame_show_preview (content modified_content : text) (output_filename : path) :
  tame (show_preview content modified_content output_filename).
Proof. unfold show_preview. repeat tame_step. Qed.


End Termination.

(** * More on the collapse of whitespace *)

Section CollapseMore.

Variable U : unicode_db.

Lemma blank_space : is_whitespace 0x20 = true.
Proof. reflexivity. Qed.

(** Non-empty pieces without whitespace, joined with single spaces, split
    into themselves again. *)
Lemma pieces_of_join (pieces : list text) :
  Forall (fun p => p <> [] /\ solid p) pieces ->
  pieces_of (str_join (str " ") pieces) pieces.
Proof.
  induction 1 as [|p rest [Hne Hsolid] Hrest IH].
  - apply pieces_none. constructor.
  - destruct rest as [|q rest].
    + simpl. rewrite <- (app_nil_r p) at 1.
      apply pieces_of_first; try done; apply pieces_none; constructor.
    + change (str_join (str " ") (p :: q :: rest))
        with (p ++ 0x20 :: str_join (str " ") (q :: rest)).
      apply pieces_of_first; try done.
      by apply pieces_of_blank_cons.
Qed.

Lemma split_join (pieces : list text) :
  Forall (fun p => p <> [] /\ solid p) pieces ->
  str_split (str_join (str " ") pieces) = pieces.
Proof. intros Hall. symmetry. by apply pieces_of_unique, pieces_of_join. Qed.

Lemma str_split_solid (s : text) :
  Forall (fun p => p <> [] /\ solid p) (str_split s).
Proof.
  apply (pieces_of_solid s). apply (split_from_pieces s []). constructor.
Qed.

Lemma filter_blank (gap : text) : blank gap -> List.filter non_blank gap = [].
Proof.
  induction 1 as [|c gap Hc _ IH]; [reflexivity|].
  simpl. unfold non_blank at 1. by rewrite Hc.
Qed.

Lemma filter_solid (piece : text) :
  solid piece -> List.filter non_blank piece = piece.
Proof.
  induction 1 as [|c piece Hc _ IH]; [reflexivity|].
  simpl. unfold non_blank at 1. rewrite Hc. simpl. by rewrite IH.
Qed.

Lemma filter_pieces_of (s : text) (pieces : list text) :
  pieces_of s pieces -> List.filter non_blank s = concat pieces.
Proof.
  induction 1 as [gap Hgap | gap piece rest ps Hgap Hne Hpiece Hrest _ IH].
  - by apply filter_blank.
  - rewrite !List.filter_app, filter_blank, filter_solid, IH by done.
    reflexivity.
Qed.

(** The join is no longer than the text the pieces come from, and shorter
    when that text begins with whitespace. *)
Lemma join_length_pieces (s : text) (pieces : list text) :
  pieces_of s pieces ->
  (length (str_join (str " ") pieces) <= length s)%nat
  /\ (pieces <> [] -> starts_blank s ->
      (length (str_join (str " ") pieces) + 1 <= length s)%nat).
Proof.
  induction 1 as [gap Hgap | gap piece rest ps Hgap Hne Hpiece Hrest Hps IH].
  - split; [simpl; lia | done].
  - destruct IH as [IHle IHlt].
    assert (Hjoin : (length (str_join (str " ") (piece :: ps))
                     <= length piece + length rest)%nat).
    { destruct ps as [|q ps].
      - simpl. lia.
      - change (str_join (str " ") (piece :: q :: ps))
          with (piece ++ 0x20 :: str_join (str " ") (q :: ps)).
        rewrite length_app. cbn [length].
        specialize (IHlt ltac:(done) Hrest). lia. }
    rewrite !length_app. split; [lia|].
    intros _ Hstart. destruct gap as [|g gap]; [|cbn [length]; lia].
    destruct piece as [|c piece]; [done|].
    inversion Hpiece as [|? ? Hc _]; subst. simpl in Hstart. congruence.
Qed.

Lemma join_only_spaces (pieces : list text) :
  Forall (fun p => p <> [] /\ solid p) pieces ->
  Forall (fun c => is_whitespace c = true -> c = 0x20)
    (str_join (str " ") pieces).
Proof.
  induction 1 as [|p rest [_ Hsolid] Hrest IH]; [constructor|].
  assert (Hp : Forall (fun c => is_whitespace c = true -> c = 0x20) p).
  { eapply Forall_impl; [exact Hsolid|]. simpl. intros c Hc Hc'. congruence. }
  destruct rest as [|q rest]; [exact Hp|].
  change (str_join (str " ") (p :: q :: rest))
    with (p ++ 0x20 :: str_join (str " ") (q :: rest)).
  apply Forall_app. split; [exact Hp|]. by constructor.
Qed.

(** X1: collapsing whitespace twice is collapsing it once. *)
Theorem collapse_whitespace_is_idempotent (content : text) :
  modify_content U (modify_content U content (str "remove_spaces"))
    (str "remove_spaces")
  = modify_content U content (str "remove_spaces").
Proof.
  rewrite !modify_content_remove_spaces.
  by rewrite split_join by apply str_split_solid.
Qed.

(** X2: the collapse of whitespace keeps every character that is not
    whitespace, in its order: it drops or replaces whitespace only. *)
Theorem collapse_whitespace_keeps_other_characters (content : text) :
  List.filter non_blank (modify_content U content (str "remove_spaces"))
  = List.filter non_blank content.
Proof.
  rewrite modify_content_remove_spaces.
  rewrite (filter_pieces_of content (str_split content))
    by (apply (split_from_pieces content []); constructor).
  apply filter_pieces_of, pieces_of_join, str_split_solid.
Qed.

(** X3: the collapse of whitespace never makes the content longer. *)
Theorem collapse_whitespace_never_lengthens (content : text) :
  (length (modify_content U content (str "remove_spaces")) <= length content)%nat.
Proof.
  rewrite modify_content_remove_spaces.
  apply join_length_pieces. apply (split_from_pieces content []). constructor.
Qed.

(** X4: the only whitespace the collapse leaves is the space U+0020: tabs
    and line breaks are gone, the result is one line. *)
Theorem collapse_whitespace_leaves_spaces_only (content : text) :
  Forall (fun c => is_whitespace c = true -> c = 0x20)
    (modify_content U content (str "remove_spaces"))
  /\ (0x0A ∉ modify_content U content (str "remove_spaces"))
  /\ (0x09 ∉ modify_content U content (str "remove_spaces")).
Proof.
  assert (Hall : Forall (fun c => is_whitespace c = true -> c = 0x20)
                   (modify_content U content (str "remove_spaces"))).
  { rewrite modify_content_remove_spaces.
    apply join_only_spaces, str_split_solid. }
  split; [exact Hall|]. rewrite Forall_forall in Hall.
  split; intros Hin; by specialize (Hall _ Hin eq_refl).
Qed.

(** X5: reversing keeps the length, and duplicating a reversed content is
    reversing the duplicated content. *)
Theorem reverse_keeps_length_and_commutes_with_duplicate (content : text) :
  length (modify_content U content (str "reverse")) = length content
  /\ modify_content U (modify_content U content (str "double")) (str "reverse")
     = modify_content U (modify_content U content (str "reverse")) (str "double").
Proof.
  rewrite !modify_content_reverse, !modify_content_double.
  split; [apply length_rev | apply rev_app_distr].
Qed.

End CollapseMore.

(** * More on upper case *)

Section UpperMore.

Variable U : unicode_db.

Lemma flat_map_fixed (f : N -> text) (s : text) :
  Forall (fun d => f d = [d]) s -> flat_map f s = s.
Proof.
  induction 1 as [|d s Hd _ IH]; [reflexivity|].
  simpl. by rewrite Hd, IH.
Qed.

(** X6: with case mappings that are stable, as those of Unicode are, the
    to-upper transform applied twice is the transform applied once. *)
Theorem upper_is_idempotent (content : text) :
  case_stable U ->
  modify_content U (modify_content U content (str "upper")) (str "upper")
  = modify_content U content (str "upper").
Proof.
  intros Hstable. rewrite !modify_content_upper.
  apply flat_map_fixed. by apply str_upper_stable.
Qed.

(** X7: the to-upper transform of a duplicated content is the duplicate of
    the to-upper transform. *)
Theorem upper_commutes_with_duplicate (content : text) :
  modify_content U (modify_content U content (str "double")) (str "upper")
  = modify_content U (modify_content U content (str "upper")) (str "double").
Proof.
  rewrite !modify_content_upper, !modify_content_double.
  apply flat_map_app.
Qed.

End UpperMore.

Lemma upper_is_idempotent_witness :
  modify_content latin_db
    (modify_content latin_db (str "Stra" ++ [0xDF] ++ str "e") (str "upper"))
    (str "upper")
  = modify_content latin_db (str "Stra" ++ [0xDF] ++ str "e") (str "upper").
Proof.
  apply (upper_is_idempotent latin_db (str "Stra" ++ [0xDF] ++ str "e")).
  exact latin_db_case_stable.
Defined.

(** * More on the reader and the writer *)

Section ReaderWriterMore.

Variable U : unicode_db.

(** Every run of [read_file] ends in a returned value and one printed line. *)
Lemma read_file_run (filename : path) (w : world) :
  exists line,
    read_file filename w
    = (Return match read_faults w !! filename with
              | Some _ => None
              | None =>
                  match nodes w !! filename with
                  | Some (TextFile content) => Some content
                  | _ => None
                  end
              end,
       emit (Printed line) w).
Proof.
  unfold read_file, try_except, bind, open_read.
  destruct (read_faults w !! filename) as [[[| |] msg]|]; simpl; eauto.
  destruct (nodes w !! filename) as [[content| |msg]|]; simpl; eauto.
Qed.



(** What a run of [write_file] can be.  [w0] is the world after the question,
    if one was asked. *)
Lemma write_attempt_cases (filename : path) (content : text) (w : world) :
  (exists kind msg,
     write_attempt filename content w
     = (Return false, emit (Printed (write_error_message filename kind msg)) w))
  \/ (encodable content = true
      /\ write_attempt filename content w
         = (Return true,
            emit (Printed ([0x2713] ++ str " Successfully wrote to " ++ filename))
              (set_nodes (insert filename (TextFile content)) w)))
  \/ (encodable content = false
      /\ write_attempt filename content w
         = (Raise UnicodeEncodeError,
            set_nodes (insert filename (TextFile [])) w)).
Proof.
  destruct (write_faults w !! filename) as [[kind msg]|] eqn:Hfault.
  { left. exists kind, msg. apply write_attempt_fails. by left. }
  destruct (nodes w !! filename) as [[c| |msg]|] eqn:Hnode;
    try (left; exists EOTHER, msg; apply write_attempt_fails; by right);
    (destruct (encodable content) eqn:Henc;
     [ right; left; split; [done|];
       apply write_attempt_succeeds; [done | by rewrite Hnode | done]
     | right; right; split; [done|];
       unfold write_attempt, write_and_report, try_except, bind,
         open_write, file_write;
       by rewrite Hfault, Hnode, Henc ]).
Qed.

Lemma write_file_cases (filename : path) (content : text) (w : world) :
  exists w0,
    nodes w0 = nodes w
    /\ read_faults w0 = read_faults w
    /\ write_faults w0 = write_faults w
    /\ (write_file U filename content w = write_attempt filename content w0
        \/ (is_Some (nodes w !! filename)
            /\ exists r, write_file U filename content w = (r, w0)
               /\ (r = Return false \/ r = Raise EOFError
                   \/ r = Raise KeyboardInterrupt))).
Proof.
  destruct (nodes w !! filename) as [n|] eqn:Hnode.
  - assert (Hexists : is_Some (nodes w !! filename)) by (by rewrite Hnode).
    destruct (stdin w) as [|[answer|] rest] eqn:Hstdin.
    + exists (emit (Prompted (overwrite_prompt filename)) w).
      repeat split; try done. right. split; [by rewrite <- Hnode|].
      exists (Raise EOFError). split; [|tauto].
      unfold write_file, try_except, bind, os_path_exists, input.
      rewrite bool_decide_eq_true_2 by done. simpl. by rewrite Hstdin.
    + rewrite (write_file_answered U w filename content answer rest) by done.
      destruct (bool_decide (str_lower U answer ≠ str "y")).
      * exists (emit (Printed (str "Operation cancelled."))
                  (asked filename rest w)).
        repeat split; try done. right. split; [by rewrite <- Hnode|].
        exists (Return false). split; [reflexivity | tauto].
      * exists (asked filename rest w). repeat split; try done. by left.
    + exists (set_stdin rest (emit (Prompted (overwrite_prompt filename)) w)).
      repeat split; try done. right. split; [by rewrite <- Hnode|].
      exists (Raise KeyboardInterrupt). split; [|tauto].
      unfold write_file, try_except, bind, os_path_exists, input.
      rewrite bool_decide_eq_true_2 by done. simpl. by rewrite Hstdin.
  - exists w. repeat split; try done. left. by apply write_file_free.
Qed.

(** The four ways a run of [write_file] ends. *)
Lemma write_file_outcomes (filename : path) (content : text) (w : world) :
  let r := fst (write_file U filename content w) in
  let w' := snd (write_file U filename content w) in
  read_faults w' = read_faults w
  /\ write_faults w' = write_faults w
  /\ ((r = Return false /\ nodes w' = nodes w)
      \/ (r = Return true /\ encodable content = true
          /\ nodes w' = <[filename := TextFile content]> (nodes w))
      \/ ((r = Raise EOFError \/ r = Raise KeyboardInterrupt)
          /\ nodes w' = nodes w /\ is_Some (nodes w !! filename))
      \/ (r = Raise UnicodeEncodeError /\ encodable content = false
          /\ nodes w' = <[filename := TextFile []]> (nodes w))).
Proof.
  cbv zeta.
  destruct (write_file_cases filename content w)
    as (w0 & Hnodes & Hread & Hwrite & [Hrun | (Hexists & r & Hrun & Hr)]);
    rewrite Hrun.
  - destruct (write_attempt_cases filename content w0)
      as [(kind & msg & ->) | [(Henc & ->) | (Henc & ->)]]; simpl;
      rewrite ?Hnodes; repeat split; try done; tauto.
  - simpl. repeat split; try done.
    destruct Hr as [-> | [-> | ->]]; tauto.
Qed.




(** X13: for a path that does not exist [write_file] asks nothing: no answer
    is taken from the console and nothing but lines of [print] is added to
    the output. *)
Theorem write_file_asks_nothing_for_a_free_path (filename : path)
    (content : text) (w : world) :
  nodes w !! filename = None ->
  stdin (snd (write_file U filename content w)) = stdin w
  /\ exists lines,
      stdout (snd (write_file U filename content w))
      = stdout w ++ map Printed lines.
Proof.
  intros Hfree. rewrite write_file_free by done.
  destruct (write_attempt_cases filename content w)
    as [(kind & msg & ->) | [(Henc & ->) | (Henc & ->)]]; simpl;
    split; try done.
  - by exists [write_error_message filename kind msg].
  - by exists [[0x2713] ++ str " Successfully wrote to " ++ filename].
  - exists []. by rewrite app_nil_r.
Qed.

(** X14: a content UTF-8 cannot encode is found out after the file has been
    opened: [write_file] then raises [UnicodeEncodeError] and leaves the
    file empty, an existing file having lost its content. *)
Theorem write_file_empties_the_file_on_unencodable_content (filename : path)
    (content : text) (w : world) :
  encodable content = false ->
  write_faults w !! filename = None ->
  (forall msg, nodes w !! filename <> Some (Directory msg)) ->
  nodes w !! filename = None
  \/ (exists answer rest,
        stdin w = Line answer :: rest /\ str_lower U answer = str "y") ->
  fst (write_file U filename content w) = Raise UnicodeEncodeError
  /\ nodes (snd (write_file U filename content w)) !! filename
     = Some (TextFile []).
Proof.
  intros Henc Hfault Hdir Hgo.
  assert (Hattempt : forall w0,
            nodes w0 = nodes w -> write_faults w0 = write_faults w ->
            write_attempt filename content w0
            = (Raise UnicodeEncodeError,
               set_nodes (insert filename (TextFile [])) w0)).
  { intros w0 Hn Hw.
    unfold write_attempt, write_and_report, try_except, bind, open_write,
      file_write.
    rewrite Hw, Hfault, Hn.
    destruct (nodes w !! filename) as [[c| |m]|] eqn:Hnode;
      try (by destruct (Hdir m)); by rewrite Henc. }
  destruct (nodes w !! filename) as [n|] eqn:Hnode.
  - destruct Hgo as [? | (answer & rest & Hstdin & Hyes)]; [done|].
    rewrite (write_file_confirmed U w filename content answer rest);
      [| by rewrite Hnode | done | done].
    rewrite Hattempt by done. simpl. split; [done | apply lookup_insert_eq].
  - rewrite write_file_free by done.
    rewrite Hattempt by done. simpl. split; [done | apply lookup_insert_eq].
Qed.

End ReaderWriterMore.

(** * The menu *)

Section MenuFacts.

Lemma loop_again {A : Type} (body : M (option A)) (fuel : nat) (w w' : world) :
  body w = (Return None, w') -> loop body (S fuel) w = loop body fuel w'.
Proof. intros Hbody. simpl. unfold bind. by rewrite Hbody. Qed.

Lemma loop_leave {A : Type} (body : M (option A)) (fuel : nat) (w w' : world)
    (a : A) :
  body w = (Return (Some a), w') -> loop body (S fuel) w = (Return a, w').
Proof. intros Hbody. simpl. unfold bind. by rewrite Hbody. Qed.

Lemma loop_raise {A : Type} (body : M (option A)) (fuel : nat) (w w' : world)
    (e : exn) :
  body w = (Raise e, w') -> loop body (S fuel) w = (Raise e, w').
Proof. intros Hbody. simpl. unfold bind. by rewrite Hbody. Qed.

Lemma get_modification_choice_rounds (w : world) :
  get_modification_choice w
  = loop choice_round (S (length (stdin w))) (menu_shown w).
Proof. reflexivity. Qed.

Lemma menu_choice_kind (choice : text) :
  choice ∈ menu_choices ->
  exists kind, modification_map !! choice = Some kind /\ kind ∈ known_kinds.
Proof.
  unfold menu_choices. rewrite !elem_of_cons, elem_of_nil.
  intros [-> | [-> | [-> | [-> | [-> | [-> | [-> | []]]]]]]];
    eexists; (split; [reflexivity|]);
    unfold known_kinds; rewrite !elem_of_cons; tauto.
Qed.

Lemma menu_kind_choice (choice kind : text) :
  modification_map !! choice = Some kind -> choice ∈ menu_choices.
Proof.
  intros Hkind. destruct (decide (choice ∈ menu_choices)) as [|Hno]; [done|].
  unfold menu_choices in Hno. rewrite !not_elem_of_cons in Hno.
  destruct Hno as (H1 & H2 & H3 & H4 & H5 & H6 & H7 & _).
  unfold modification_map in Hkind.
  rewrite !lookup_insert_ne in Hkind by congruence.
  by rewrite lookup_empty in Hkind.
Qed.

Lemma choice_round_end (w : world) :
  stdin w = [] ->
  choice_round w
  = (Raise EOFError, emit (Prompted (str "Enter your choice (1-7): ")) w).
Proof.
  intros Hstdin. unfold choice_round, try_except, bind, input. simpl.
  by rewrite Hstdin.
Qed.

Lemma choice_round_interrupt (w : world) (rest : list event) :
  stdin w = Interrupt :: rest ->
  choice_round w
  = (Raise (SystemExit 0),
     emit (Printed (nl ++ str "Operation cancelled."))
       (set_stdin rest (emit (Prompted (str "Enter your choice (1-7): ")) w))).
Proof.
  intros Hstdin. unfold choice_round, try_except, bind, input. simpl.
  by rewrite Hstdin.
Qed.

Lemma choice_round_valid (w : world) (answer : text) (rest : list event)
    (kind : text) :
  stdin w = Line answer :: rest ->
  modification_map !! str_strip answer = Some kind ->
  choice_round w
  = (Return (Some kind),
     set_stdin rest (emit (Prompted (str "Enter your choice (1-7): ")) w)).
Proof.
  intros Hstdin Hkind. unfold choice_round, try_except, bind, input. simpl.
  rewrite Hstdin. cbv zeta.
  rewrite bool_decide_eq_true_2 by (by eapply menu_kind_choice).
  by rewrite Hkind.
Qed.

Lemma choice_round_refused (w : world) (answer : text) (rest : list event) :
  stdin w = Line answer :: rest ->
  str_strip answer ∉ menu_choices ->
  choice_round w = (Return None, refused [answer] w)
  /\ stdin (refused [answer] w) = rest.
Proof.
  intros Hstdin Hbad. unfold choice_round, try_except, bind, input. simpl.
  rewrite Hstdin. cbv zeta. rewrite bool_decide_eq_false_2 by done.
  done.
Qed.

(** The rounds the menu spends on answers it refuses. *)
Lemma loop_refused (bad : list text) (tail_ : list event) (fuel : nat)
    (w : world) :
  Forall (fun answer => str_strip answer ∉ menu_choices) bad ->
  stdin w = map Line bad ++ tail_ ->
  loop choice_round (length bad + fuel) w
  = loop choice_round fuel (refused bad w)
  /\ stdin (refused bad w) = tail_
  /\ nodes (refused bad w) = nodes w.
Proof.
  intros Hbad. revert w.
  induction Hbad as [|answer bad Hanswer _ IH]; intros w Hstdin; [done|].
  simpl in Hstdin.
  destruct (choice_round_refused w answer (map Line bad ++ tail_) Hstdin Hanswer)
    as [Hround Hrest].
  change (length (answer :: bad) + fuel)%nat with (S (length bad + fuel)).
  rewrite (loop_again _ _ _ _ Hround).
  destruct (IH (refused [answer] w) Hrest) as (Hloop & Htail & Hnodes).
  rewrite Hloop. simpl. rewrite Hstdin. simpl in *. rewrite Hstdin in *.
  done.
Qed.

Lemma loop_choice_outcomes (fuel : nat) (w : world) :
  nodes (snd (loop choice_round fuel w)) = nodes w
  /\ match fst (loop choice_round fuel w) with
     | Return kind => kind ∈ known_kinds
     | Raise e => e = EOFError \/ e = SystemExit 0
     | OutOfFuel => True
     end.
Proof.
  revert w. induction fuel as [|fuel IH]; intros w; [done|].
  destruct (stdin w) as [|[answer|] rest] eqn:Hstdin.
  - rewrite (loop_raise _ _ _ _ _ (choice_round_end w Hstdin)). simpl. tauto.
  - destruct (decide (str_strip answer ∈ menu_choices)) as [Hin | Hout].
    + destruct (menu_choice_kind _ Hin) as (kind & Hkind & Hknown).
      by rewrite (loop_leave _ _ _ _ _
                    (choice_round_valid w answer rest kind Hstdin Hkind)).
    + destruct (choice_round_refused w answer rest Hstdin Hout) as [Hround _].
      rewrite (loop_again _ _ _ _ Hround).
      destruct (IH (refused [answer] w)) as [Hnodes Hresult].
      by rewrite Hnodes.
  - rewrite (loop_raise _ _ _ _ _ (choice_round_interrupt w rest Hstdin)).
    simpl. tauto.
Qed.


(** X16: the menu asks again after every answer that, stripped, is not a
    digit from 1 to 7, and the first answer that is one decides: its kind is
    returned and the answers behind it are left on the console. *)
Theorem menu_asks_again_until_valid (w : world) (bad : list text)
    (good : text) (rest : list event) (kind : text) :
  Forall (fun answer => str_strip answer ∉ menu_choices) bad ->
  modification_map !! str_strip good = Some kind ->
  stdin w = map Line bad ++ Line good :: rest ->
  fst (get_modification_choice w) = Return kind
  /\ stdin (snd (get_modification_choice w)) = rest.
Proof.
  intros Hbad Hkind Hstdin. rewrite get_modification_choice_rounds.
  replace (S (length (stdin w)))
    with (length bad + S (S (length rest)))%nat
    by (rewrite Hstdin, length_app, length_map; simpl; lia).
  destruct (loop_refused bad (Line good :: rest) (S (S (length rest)))
              (menu_shown w) Hbad Hstdin) as (-> & Htail & _).
  by rewrite (loop_leave _ _ _ _ _
                (choice_round_valid _ good rest kind Htail Hkind)).
Qed.

(** X17: an interrupt at the menu, after any number of refused answers, ends
    the program by [SystemExit(0)], the last line printed being
    ["Operation cancelled."]. *)
Theorem menu_interrupt_exits_with_status_0 (w : world) (bad : list text)
    (rest : list event) :
  Forall (fun answer => str_strip answer ∉ menu_choices) bad ->
  stdin w = map Line bad ++ Interrupt :: rest ->
  fst (get_modification_choice w) = Raise (SystemExit 0)
  /\ last (stdout (snd (get_modification_choice w)))
     = Some (Printed (nl ++ str "Operation cancelled.")).
Proof.
  intros Hbad Hstdin. rewrite get_modification_choice_rounds.
  replace (S (length (stdin w)))
    with (length bad + S (S (length rest)))%nat
    by (rewrite Hstdin, length_app, length_map; simpl; lia).
  destruct (loop_refused bad (Interrupt :: rest) (S (S (length rest)))
              (menu_shown w) Hbad Hstdin) as (-> & Htail & _).
  rewrite (loop_raise _ _ _ _ _ (choice_round_interrupt _ rest Htail)).
  simpl. split; [done | by rewrite last_snoc].
Qed.

End MenuFacts.

(** * Runs of the whole program *)

Section MainRuns.

Variable U : unicode_db.

Lemma elem_of_snoc_here {A : Type} (l : list A) (x : A) : x ∈ l ++ [x].
Proof. apply elem_of_app. right. by apply list_elem_of_singleton. Qed.

Lemma elem_of_snoc_further {A : Type} (l : list A) (x y : A) :
  x ∈ l -> x ∈ l ++ [y].
Proof. intros Hx. apply elem_of_app. by left. Qed.

Lemma bind_return {A B : Type} (c : M A) (k : A -> M B) (w w' : world) (a : A) :
  c w = (Return a, w') -> bind c k w = k a w'.
Proof. intros Hc. unfold bind. by rewrite Hc. Qed.

Lemma while_true_leave {A : Type} (body : M (option A)) (w w' : world) (a : A) :
  body w = (Return (Some a), w') -> while_true body w = (Return a, w').
Proof. intros Hbody. unfold while_true. by apply loop_leave. Qed.

Lemma input_round_reads (w : world) (name : text) (rest : list event)
    (content : text) :
  stdin w = Line name :: rest ->
  str_strip name <> [] ->
  read_faults w !! str_strip name = None ->
  nodes w !! str_strip name = Some (TextFile content) ->
  input_round U w
  = (Return (Some (Some content)),
     emit (Printed ([0x2713] ++ str " Successfully read " ++ str_strip name))
       (set_stdin rest
          (emit (Prompted (nl ++ str "Enter the filename to read: ")) w))).
Proof.
  intros Hstdin Hname Hfault Hnode.
  unfold input_round, bind, input. simpl. rewrite Hstdin. cbv zeta.
  destruct (str_strip name) as [|c name'] eqn:Hstrip; [done|].
  unfold read_file, try_except, bind, open_read. simpl.
  by rewrite Hfault, Hnode.
Qed.

Lemma get_modification_choice_valid (w : world) (good : text)
    (rest : list event) (kind : text) :
  stdin w = Line good :: rest ->
  modification_map !! str_strip good = Some kind ->
  get_modification_choice w
  = (Return kind,
     set_stdin rest
       (emit (Prompted (str "Enter your choice (1-7): ")) (menu_shown w))).
Proof.
  intros Hstdin Hkind. rewrite get_modification_choice_rounds.
  apply loop_leave. by apply (choice_round_valid _ good rest kind).
Qed.

Lemma output_round_writes (w : world) (out : text) (rest : list event)
    (modified_content : text) :
  stdin w = Line out :: rest ->
  str_strip out <> [] ->
  nodes w !! str_strip out = None ->
  write_faults w !! str_strip out = None ->
  encodable modified_content = true ->
  output_round U modified_content w
  = (Return (Some (Some (str_strip out))),
     emit (Printed ([0x2713] ++ str " Successfully wrote to " ++ str_strip out))
       (set_nodes (insert (str_strip out) (TextFile modified_content))
          (set_stdin rest
             (emit (Prompted (nl ++ str "Enter output filename: ")) w)))).
Proof.
  intros Hstdin Hout Hfree Hfault Henc.
  unfold output_round, bind at 1, input. simpl. rewrite Hstdin. cbv zeta.
  destruct (str_strip out) as [|c out'] eqn:Hstrip; [done|].
  unfold bind. rewrite write_file_free by done.
  rewrite write_attempt_succeeds; try done.
  simpl. intros msg. by rewrite Hfree.
Qed.


Lemma lstrip_blank (s : text) : blank s -> lstrip s = [].
Proof. induction 1 as [|c s Hc _ IH]; [reflexivity|]. simpl. by rewrite Hc. Qed.

Lemma str_strip_blank (s : text) : blank s -> str_strip s = [].
Proof. intros Hs. unfold str_strip. by rewrite lstrip_blank. Qed.

(** X19: a file name that is empty or all whitespace is refused at both
    prompts before any file is looked at: the round prints
    ["Please enter a valid filename."] and asks again. *)
Theorem blank_filename_is_asked_again (w : world) (answer : text)
    (rest : list event) (modified_content : text) :
  blank answer ->
  stdin w = Line answer :: rest ->
  input_round U w
  = (Return None,
     emit (Printed (str "Please enter a valid filename."))
       (set_stdin rest
          (emit (Prompted (nl ++ str "Enter the filename to read: ")) w)))
  /\ output_round U modified_content w
     = (Return None,
        emit (Printed (str "Please enter a valid filename."))
          (set_stdin rest
             (emit (Prompted (nl ++ str "Enter output filename: ")) w))).
Proof.
  intros Hblank Hstdin.
  unfold input_round, output_round, bind, input. simpl. rewrite Hstdin.
  cbv zeta. by rewrite str_strip_blank.
Qed.

Lemma input_line (prompt : text) (w : world) (answer : text)
    (rest : list event) :
  stdin w = Line answer :: rest ->
  input prompt w = (Return answer, set_stdin rest (emit (Prompted prompt) w)).
Proof. intros Hstdin. unfold input. simpl. by rewrite Hstdin. Qed.

Lemma input_round_gives_up (w : world) (name answer : text) (rest : list event) :
  stdin w = Line name :: Line answer :: rest ->
  str_strip name <> [] ->
  is_Some (read_faults w !! str_strip name)
  \/ (forall c, nodes w !! str_strip name <> Some (TextFile c)) ->
  str_lower U answer ≠ str "y" ->
  exists w',
    input_round U w = (Return (Some None), w')
    /\ nodes w' = nodes w
    /\ stdin w' = rest
    /\ last (stdout w') = Some (Printed (str "Goodbye!")).
Proof.
  intros Hstdin Hname Hfail Hno.
  unfold input_round.
  erewrite bind_return; [| by apply input_line]. cbv beta zeta.
  destruct (str_strip name) as [|c name'] eqn:Hstrip; [done|].
  set (w1 := set_stdin (Line answer :: rest)
               (emit (Prompted (nl ++ str "Enter the filename to read: ")) w)).
  destruct (read_file_run (c :: name') w1) as [line Hrun].
  assert (Hnone : match read_faults w1 !! (c :: name') with
                  | Some _ => None
                  | None =>
                      match nodes w1 !! (c :: name') with
                      | Some (TextFile content) => Some content
                      | _ => None
                      end
                  end = None).
  { simpl. destruct Hfail as [[f ->] | Hnot]; [done|].
    destruct (read_faults w !! (c :: name')); [done|].
    destruct (nodes w !! (c :: name')) as [[content| |]|] eqn:Hnode; try done.
    by destruct (Hnot content). }
  rewrite Hnone in Hrun.
  erewrite bind_return; [| exact Hrun]. cbv beta iota.
  erewrite bind_return; [| by apply (input_line _ _ answer rest)].
  cbv beta zeta. rewrite bool_decide_eq_true_2 by done.
  erewrite bind_return; [| reflexivity].
  eexists. split; [reflexivity|].
  cbn [nodes stdin stdout emit set_stdin]. repeat split; try done.
  by rewrite last_snoc.
Qed.

(** X20: when the file cannot be read and the user does not answer [y] to
    the offer to try another one, [main] says ["Goodbye!"] and returns: no
    file has changed and nothing more is read from the console. *)
Theorem main_gives_up_after_a_failed_read (w : world) (name answer : text)
    (rest : list event) :
  stdin w = Line name :: Line answer :: rest ->
  str_strip name <> [] ->
  is_Some (read_faults w !! str_strip name)
  \/ (forall c, nodes w !! str_strip name <> Some (TextFile c)) ->
  str_lower U answer ≠ str "y" ->
  fst (main U w) = Return tt
  /\ nodes (snd (main U w)) = nodes w
  /\ stdin (snd (main U w)) = rest
  /\ last (stdout (snd (main U w))) = Some (Printed (str "Goodbye!")).
Proof.
  intros Hstdin Hname Hfail Hno.
  unfold main.
  do 3 (erewrite (bind_return (print _)); [|reflexivity]).
  edestruct (input_round_gives_up
               (emit (Printed (str_repeat (str "=") 50))
                  (emit (Printed ([0x1F4C1] ++ str " FILE HANDLER PROGRAM"))
                     (emit (Printed (str_repeat (str "=") 50)) w)))
               name answer rest)
    as (w' & Hround & Hnodes & Hrest & Hlast); try done.
  erewrite bind_return; [| apply while_true_leave; exact Hround].
  done.
Qed.

End MainRuns.

(** * What leaves the program *)

Section Exceptions.

Variable U : unicode_db.

Lemma raises_only_weaken {A : Type} (P Q : exn -> Prop) (c : M A) :
  (forall e, P e -> Q e) -> raises_only P c -> raises_only Q c.
Proof. intros HPQ Hc w e He. apply HPQ. by apply (Hc w). Qed.

Lemma raises_only_ret {A : Type} (P : exn -> Prop) (a : A) : raises_only P (ret a).
Proof. by intros w e. Qed.

Lemma raises_only_print (P : exn -> Prop) (s : text) : raises_only P (print s).
Proof. by intros w e. Qed.

Lemma raises_only_input (prompt : text) :
  raises_only (fun e => e = EOFError \/ e = KeyboardInterrupt) (input prompt).
Proof.
  intros w e. unfold input. simpl.
  destruct (stdin w) as [|[s|] rest]; simpl; intros [= <-]; tauto.
Qed.

Lemma raises_only_bind {A B : Type} (P : exn -> Prop) (c : M A) (k : A -> M B) :
  raises_only P c -> (forall a, raises_only P (k a)) -> raises_only P (bind c k).
Proof.
  intros Hc Hk w e. unfold bind. specialize (Hc w).
  destruct (c w) as [[a | e' |] w'] eqn:Hcw; simpl in *.
  - apply Hk.
  - intros [= <-]. by apply Hc.
  - done.
Qed.

Lemma raises_only_loop {A : Type} (P : exn -> Prop) (body : M (option A))
    (fuel : nat) :
  raises_only P body -> raises_only P (loop body fuel).
Proof.
  intros Hbody. induction fuel as [|fuel IH]; [by intros w e|].
  simpl. apply raises_only_bind; [done|].
  intros [a|]; [apply raises_only_ret | exact IH].
Qed.

Lemma raises_only_while_true {A : Type} (P : exn -> Prop) (body : M (option A)) :
  raises_only P body -> raises_only P (while_true body).
Proof. intros Hbody w e. unfold while_true. by apply raises_only_loop. Qed.

Lemma raises_only_read_file (P : exn -> Prop) (filename : path) :
  raises_only P (read_file filename).
Proof.
  intros w e. destruct (read_file_run filename w) as [line ->]. done.
Qed.

Lemma raises_only_write_file (filename : path) (content : text) :
  raises_only main_exception (write_file U filename content).
Proof.
  intros w e He. unfold main_exception.
  destruct (write_file_outcomes U filename content w)
    as (_ & _ & [[Hr _] | [(Hr & _) | [([Hr | Hr] & _) | (Hr & _)]]]);
    rewrite Hr in He; inversion He; tauto.
Qed.

Lemma raises_only_get_modification_choice :
  raises_only main_exception get_modification_choice.
Proof.
  intros w e He. rewrite get_modification_choice_rounds in He.
  destruct (loop_choice_outcomes (S (length (stdin w))) (menu_shown w))
    as [_ Hresult].
  rewrite He in Hresult. unfold main_exception. tauto.
Qed.

Lemma raises_only_main_input (prompt : text) :
  raises_only main_exception (input prompt).
Proof.
  apply (raises_only_weaken (fun e => e = EOFError \/ e = KeyboardInterrupt));
    [unfold main_exception; tauto | apply raises_only_input].
Qed.

Ltac raises_step :=
  first
    [ apply raises_only_ret | apply raises_only_print
    | apply raises_only_main_input | apply raises_only_read_file
    | apply raises_only_write_file | apply raises_only_get_modification_choice
    | apply raises_only_bind; [|intros ?]
    | progress cbv zeta
    | match goal with
      | |- raises_only _ (if ?b then _ else _) => destruct b
      | |- raises_only _ (match ?x with _ => _ end) => destruct x
      end ].

Lemma raises_only_main : raises_only main_exception (main U).
Proof.
  unfold main. do 3 (apply raises_only_bind; [apply raises_only_print|intros _]).
  apply raises_only_bind.
  { apply raises_only_while_true. unfold input_round. repeat raises_step. }
  intros [content|]; [|apply raises_only_ret].
  apply raises_only_bind; [apply raises_only_get_modification_choice|].
  intros kind. cbv zeta. apply raises_only_bind.
  { apply raises_only_while_true. unfold output_round. repeat raises_step. }
  intros [output_filename|]; [|apply raises_only_ret].
  unfold show_preview. repeat raises_step.
Qed.

Lemma tame_main : tame (main U).
Proof.
  unfold main. repeat (apply tame_bind; [apply tame_print|intros _]).
  apply tame_bind; [apply tame_while_true, eager_input_round|].
  intros [content|]; [|apply tame_ret].
  apply tame_bind; [apply tame_get_modification_choice|]. intros kind.
  apply tame_bind; [apply tame_while_true, eager_output_round|].
  intros [output_filename|]; [apply tame_show_preview | apply tame_ret].
Qed.



End Exceptions.

(** * What the program may touch *)

Section Frame.

Variable U : unicode_db.

Variable w0 : world.

Lemma within_ret {A : Type} (a : A) : within w0 (ret a).
Proof. intros w Hw. by split. Qed.

Lemma within_raise {A : Type} (e : exn) : within w0 (@raise A e).
Proof. intros w Hw. by split. Qed.

Lemma within_print (s : text) : within w0 (print s).
Proof. intros w Hw. by split. Qed.

Lemma within_os_path_exists (p : path) : within w0 (os_path_exists p).
Proof. intros w Hw. by split. Qed.

Lemma within_open_read (p : path) : within w0 (open_read p).
Proof.
  intros w Hw. unfold open_read.
  destruct (read_faults w !! p) as [[kind msg]|]; [by split|].
  destruct (nodes w !! p) as [[| |]|]; by split.
Qed.

Lemma within_open_write (p : path) : typed w0 p -> within w0 (open_write p).
Proof.
  intros Hp w Hw. unfold open_write.
  destruct (write_faults w !! p) as [[kind msg]|]; [by split|].
  destruct (nodes w !! p) as [[| |]|]; split; try done;
    intros q Hq; simpl; apply lookup_insert_ne; by intros ->.
Qed.

Lemma within_file_write (p : path) (content : text) :
  typed w0 p -> within w0 (file_write p content).
Proof.
  intros Hp w Hw. unfold file_write.
  destruct (encodable content); split; try done.
  intros q Hq. simpl. apply lookup_insert_ne. by intros ->.
Qed.

Lemma within_bind {A B : Type} (c : M A) (k : A -> M B) :
  within w0 c -> (forall a, within w0 (k a)) -> within w0 (bind c k).
Proof.
  intros Hc Hk w Hw. unfold bind. destruct (Hc w Hw) as [Hstdin Hnodes].
  destruct (c w) as [[a | e |] w'] eqn:Hcw; simpl in *; try done.
  destruct (Hk a w' Hstdin) as [Hstdin' Hnodes']. split; [done|].
  intros p Hp. rewrite Hnodes' by done. by apply Hnodes.
Qed.

Lemma within_try_except {A : Type} (body : M A) (handlers : exn -> option (M A)) :
  within w0 body -> (forall e h, handlers e = Some h -> within w0 h) ->
  within w0 (try_except body handlers).
Proof.
  intros Hbody Hhandlers w Hw. unfold try_except.
  destruct (Hbody w Hw) as [Hstdin Hnodes].
  destruct (body w) as [[a | e |] w'] eqn:Hbw; simpl in *; try done.
  destruct (handlers e) as [h|] eqn:He; [|done].
  destruct (Hhandlers e h He w' Hstdin) as [Hstdin' Hnodes']. split; [done|].
  intros p Hp. rewrite Hnodes' by done. by apply Hnodes.
Qed.

(** What is read from the console of [w0] is typed. *)
Lemma within_input (prompt : text) {A : Type} (k : text -> M A) :
  (forall s, Line s ∈ stdin w0 -> within w0 (k s)) ->
  within w0 (bind (input prompt) k).
Proof.
  intros Hk w Hw. unfold bind, input. simpl.
  destruct (stdin w) as [|[s|] rest] eqn:Hstdin; simpl.
  - rewrite Hstdin. by split.
  - assert (Hs : Line s ∈ stdin w0) by (apply Hw; left).
    assert (Hrest : rest ⊆ stdin w0) by (intros x Hx; apply Hw; by right).
    destruct (Hk s Hs (set_stdin rest (emit (Prompted prompt) w)) Hrest)
      as [Hstdin' Hnodes'].
    split; done.
  - split; [|done]. intros x Hx. apply Hw. by right.
Qed.

Lemma within_loop {A : Type} (body : M (option A)) (fuel : nat) :
  within w0 body -> within w0 (loop body fuel).
Proof.
  intros Hbody. induction fuel as [|fuel IH]; [by intros w Hw; split|].
  simpl. apply within_bind; [done|].
  intros [a|]; [apply within_ret | exact IH].
Qed.

Lemma within_while_true {A : Type} (body : M (option A)) :
  within w0 body -> within w0 (while_true body).
Proof. intros Hbody w Hw. unfold while_true. by apply within_loop. Qed.

Ltac within_step :=
  first
    [ apply within_ret | apply within_raise | apply within_print
    | apply within_os_path_exists | apply within_open_read
    | apply within_input; intros ? ?
    | apply within_bind; [|intros ?]
    | progress cbv zeta
    | match goal with
      | |- within _ (if ?b then _ else _) => destruct b
      | |- within _ (match ?x with _ => _ end) => destruct x
      end ].

Lemma within_handlers {A : Type} (handlers : exn -> option (M A)) :
  (forall e h, handlers e = Some h -> exists s a, h = (print s ;; ret a)) ->
  forall e h, handlers e = Some h -> within w0 h.
Proof.
  intros Hshape e h He. destruct (Hshape e h He) as (s & a & ->).
  apply within_bind; [apply within_print | intros _; apply within_ret].
Qed.

Lemma within_read_file (filename : path) : within w0 (read_file filename).
Proof.
  intros w Hw. destruct (read_file_run filename w) as [line ->]. by split.
Qed.

Lemma within_write_file (filename : path) (content : text) :
  typed w0 filename -> within w0 (write_file U filename content).
Proof.
  intros Htyped. unfold write_file. apply within_try_except.
  - assert (Hreport : within w0 (write_and_report filename content)).
    { unfold write_and_report.
      apply within_bind; [by apply within_open_write|]. intros _.
      apply within_bind; [by apply within_file_write|]. intros _.
      repeat within_step. }
    apply within_bind; [apply within_os_path_exists|].
    intros [|]; [|exact Hreport].
    apply within_input. intros answer _. cbv zeta.
    destruct (bool_decide _); [repeat within_step | exact Hreport].
  - apply within_handlers. intros e h He.
    destruct e as [[| |] msg| | | | | |]; simpl in He; inversion He; eauto.
Qed.

Lemma within_get_modification_choice : within w0 get_modification_choice.
Proof.
  unfold get_modification_choice.
  repeat (apply within_bind; [apply within_print|intros _]).
  apply within_while_true. apply within_try_except.
  - repeat within_step.
  - intros e h He. destruct e as [[| |] msg| | | | | |]; simpl in He;
      inversion He; subst. unfold sys_exit. repeat within_step.
Qed.

Lemma within_input_round : within w0 (input_round U).
Proof.
  unfold input_round. apply within_input. intros answer _. cbv zeta.
  destruct (str_strip answer); [repeat within_step|].
  apply within_bind; [apply within_read_file|]. intros content.
  repeat within_step.
Qed.

Lemma within_output_round (modified_content : text) :
  within w0 (output_round U modified_content).
Proof.
  unfold output_round. apply within_input. intros answer Hanswer. cbv zeta.
  destruct (str_strip answer) as [|c name] eqn:Hstrip; [repeat within_step|].
  apply within_bind; [apply within_write_file; by exists answer|].
  intros written. repeat within_step.
Qed.

Lemma within_main : within w0 (main U).
Proof.
  unfold main. repeat (apply within_bind; [apply within_print|intros _]).
  apply within_bind; [apply within_while_true, within_input_round|].
  intros [content|]; [|apply within_ret].
  apply within_bind; [apply within_get_modification_choice|]. intros kind.
  cbv zeta.
  apply within_bind; [apply within_while_true, within_output_round|].
  intros [output_filename|]; [|apply within_ret].
  unfold show_preview. repeat within_step.
Qed.

End Frame.


(** * The theorems above at work *)



Lemma write_file_asks_nothing_for_a_free_path_witness :
  stdin (snd (write_file latin_db (str "out.txt") (str "new") world_hello))
  = stdin world_hello
  /\ exists lines,
      stdout (snd (write_file latin_db (str "out.txt") (str "new") world_hello))
      = stdout world_hello ++ map Printed lines.
Proof.
  apply (write_file_asks_nothing_for_a_free_path latin_db (str "out.txt")
           (str "new") world_hello).
  vm_compute. reflexivity.
Defined.

Lemma write_file_empties_the_file_on_unencodable_content_witness :
  fst (write_file latin_db (str "out.txt") [0xD800] world_confirming)
  = Raise UnicodeEncodeError
  /\ nodes (snd (write_file latin_db (str "out.txt") [0xD800] world_confirming))
       !! str "out.txt"
     = Some (TextFile []).
Proof.
  apply (write_file_empties_the_file_on_unencodable_content latin_db
           (str "out.txt") [0xD800] world_confirming).
  - reflexivity.
  - vm_compute. reflexivity.
  - intros msg. vm_compute. discriminate.
  - right. exists (str "Y"), []. split; reflexivity.
Defined.

Ltac refused_answer :=
  unfold menu_choices; rewrite !not_elem_of_cons; vm_compute;
  repeat split; try discriminate; inversion 1.

Lemma menu_asks_again_until_valid_witness :
  fst (get_modification_choice world_menu) = Return (str "title")
  /\ stdin (snd (get_modification_choice world_menu)) = [Line (str "next")].
Proof.
  apply (menu_asks_again_until_valid world_menu [str "9"; str "x"] (str " 3 ")
           [Line (str "next")] (str "title")).
  - constructor; [refused_answer|].
    constructor; [refused_answer|].
    constructor.
  - vm_compute. reflexivity.
  - reflexivity.
Defined.

Lemma menu_interrupt_exits_with_status_0_witness :
  fst (get_modification_choice world_interrupted) = Raise (SystemExit 0)
  /\ last (stdout (snd (get_modification_choice world_interrupted)))
     = Some (Printed (nl ++ str "Operation cancelled.")).
Proof.
  apply (menu_interrupt_exits_with_status_0 world_interrupted [str "0"]
           [Line (str "1")]).
  - constructor; [refused_answer|].
    constructor.
  - reflexivity.
Defined.


Lemma blank_filename_is_asked_again_witness :
  input_round latin_db world_blank
  = (Return None,
     emit (Printed (str "Please enter a valid filename."))
       (set_stdin [Line (str "out.txt")]
          (emit (Prompted (nl ++ str "Enter the filename to read: "))
             world_blank)))
  /\ output_round latin_db (str "new") world_blank
     = (Return None,
        emit (Printed (str "Please enter a valid filename."))
          (set_stdin [Line (str "out.txt")]
             (emit (Prompted (nl ++ str "Enter output filename: "))
                world_blank))).
Proof.
  apply (blank_filename_is_asked_again latin_db world_blank (str "   ")
           [Line (str "out.txt")] (str "new")).
  - repeat constructor.
  - reflexivity.
Defined.

Lemma main_gives_up_after_a_failed_read_witness :
  fst (main latin_db world_missing) = Return tt
  /\ nodes (snd (main latin_db world_missing)) = nodes world_missing
  /\ stdin (snd (main latin_db world_missing)) = [Line (str "left")]
  /\ last (stdout (snd (main latin_db world_missing)))
     = Some (Printed (str "Goodbye!")).
Proof.
  apply (main_gives_up_after_a_failed_read latin_db world_missing
           (str "nope.txt") (str "n") [Line (str "left")]).
  - reflexivity.
  - vm_compute. discriminate.
  - right. intros c. vm_compute. discriminate.
  - vm_compute. discriminate.
Defined.


